(** * Reading catalogs from disk: file adapters, file stacks and catalogs

    A shallow embedding of the custom-format example of
    [docs/source/catalogs/reading.ipynb] (the [NPYFile] adapter and the
    [NPYCatalog] built from it) together with the multi-file stack and the
    catalog layer that the notebook drives. *)

From Stdlib Require Import ZArith QArith Lia Ascii String.
From stdpp Require Import base tactics option numbers list strings gmap sorting.

Local Open Scope Z_scope.

(** ** Errors and results *)

(** The exceptions a call can end with.  The first four are the taxonomy of
    the catalog layer; the others are the Python built-ins raised by the
    operations the code calls (a zero slice step, a missing file, an index
    past the end of a list, a lookup of a missing name). *)
Inductive error : Type :=
  | ConfigurationError
  | SchemaError
  | FormatError
  | RangeError
  | ValueError
  | FileNotFoundError
  | IndexError
  | KeyError.

Inductive result (A : Type) : Type :=
  | Ok (a : A)
  | Err (e : error).
Arguments Ok {A} a.
Arguments Err {A} e.

Global Instance error_eq_dec : EqDecision error.
Proof. solve_decision. Defined.

Global Instance result_ret : MRet result := λ A a, Ok a.
Global Instance result_bind : MBind result := λ A B f m,
  match m with Ok a => f a | Err e => Err e end.
Global Instance result_fmap : FMap result := λ A B f m,
  match m with Ok a => Ok (f a) | Err e => Err e end.


(** ** Python slices *)

Module Py.

(** [len(l)] *)
Definition len {A} (l : list A) : Z := Z.of_nat (length l).

(** One bound of [slice.indices]: a negative bound counts from the end,
    and the outcome is clamped to [lower, upper]. *)
Definition adjust (length lower upper i : Z) : Z :=
  if i <? 0 then Z.max (i + length) lower else Z.min i upper.

(** [slice(start, stop, step).indices(length)] for a nonzero step. *)
Definition slice_indices (length start stop step : Z) : Z * Z :=
  let lower := if step <? 0 then -1 else 0 in
  let upper := if step <? 0 then length - 1 else length in
  (adjust length lower upper start, adjust length lower upper stop).

(** Number of items selected by adjusted bounds. *)
Definition slice_length (start stop step : Z) : Z :=
  if step <? 0
  then (if stop <? start then (start - stop - 1) / (- step) + 1 else 0)
  else (if start <? stop then (stop - start - 1) / step + 1 else 0).

(** [l[start:stop:step]] for integer bounds. *)
Definition getslice {A} (l : list A) (start stop step : Z) : result (list A) :=
  if step =? 0 then Err ValueError
  else
    let '(s, e) := slice_indices (len l) start stop step in
    Ok (omap (λ k, l !! Z.to_nat (s + k * step)) (seqZ 0 (slice_length s e step))).

(** [ceil(a / b)] on integers, for [b > 0]. *)
Definition ceil_div (a b : Z) : Z := - ((- a) / b).

End Py.

(** ** NumPy structured arrays *)

Module Numpy.

(** The type of one field: a base type such as ['f8'] and a per-row
    shape, as in [('Position', ('f8', 3))]. *)
Record field_type : Type := { base : string; shape : list Z }.

(** A structured dtype: the ordered list of named fields. *)
Definition dtype : Type := list (string * field_type).

(** Values are only stored and moved, never computed with. *)
Inductive value : Type :=
  | VBool (b : bool)
  | VFloat (x : Q)
  | VArray (xs : list Q).

(** One record of a structured array: one value per field of the dtype,
    in the order of the dtype. *)
Definition row : Type := list value.

(** A one-dimensional structured array. *)
Record ndarray : Type := { nd_dtype : dtype; nd_data : list row }.

Global Instance field_type_eq_dec : EqDecision field_type.
Proof. solve_decision. Defined.

(** [dtype.names] *)
Definition names (d : dtype) : list string := d.*1.

(** [len(a)] *)
Definition len (a : ndarray) : Z := Py.len (nd_data a).

(** [numpy.load(path)] over the files on disk. *)
Definition load (fs : gmap string ndarray) (path : string) : result ndarray :=
  match fs !! path with
  | Some a => Ok a
  | None => Err FileNotFoundError
  end.

(** [a[start:stop:step]]: the records selected by the slice; every field
    is kept. *)
Definition getitem (a : ndarray) (start stop step : Z) : result ndarray :=
  rows ← Py.getslice (nd_data a) start stop step;
  Ok {| nd_dtype := nd_dtype a; nd_data := rows |}.

(** [a[name]]: the values of one field, record by record.  A record of a
    structured array has one value per field of the dtype, so the lookup
    in the record always succeeds. *)
Definition field (a : ndarray) (name : string) : result (list value) :=
  match list_find (λ n, n = name) (names (nd_dtype a)) with
  | Some (j, _) => Ok ((λ r : row, default (VFloat 0) (r !! j)) <$> nd_data a)
  | None => Err ValueError
  end.

End Numpy.

(** ** The file-like interface [nbodykit.io.base.FileType]

    The notebook lists what a subclass must provide: an [__init__] from a
    path that sets the total [size] and the [dtype], and [read].  A call of
    [read] is a method call on the object, so it returns the object next
    to its outcome. *)

Class FileType (A : Type) : Type := {
  ft_open : gmap string Numpy.ndarray → string → result A;
  ft_size : A → Z;
  ft_dtype : A → Numpy.dtype;
  ft_read : list string → Z → Z → Z → A → result Numpy.ndarray * A;
}.

(** ** [NPYFile]: a file-like object to read numpy [.npy] files *)

Module NPYFile.

Record t : Type := {
  path : string;
  attrs : gmap string Numpy.value;
  _data : Numpy.ndarray;
  size : Z;
  dtype : Numpy.dtype;
}.

(** [__init__]: load the data and set size and dtype. *)
Definition __init__ (fs : gmap string Numpy.ndarray) (path : string) : result t :=
  data ← Numpy.load fs path;
  Ok {| path := path;
        attrs := ∅;
        _data := data;
        size := Numpy.len data;
        dtype := Numpy.nd_dtype data |}.

(** [read(columns, start, stop, step)]: [return self._data[start:stop:step]]. *)
Definition read (columns : list string) (start stop step : Z) (self : t)
  : result Numpy.ndarray * t :=
  (Numpy.getitem (_data self) start stop step, self).

(** Calls of [read] one after the other on the same object. *)
Fixpoint reads (reqs : list (list string * Z * Z * Z)) (self : t)
  : list (result Numpy.ndarray) * t :=
  match reqs with
  | [] => ([], self)
  | (columns, start, stop, step) :: reqs' =>
      let '(r, self1) := read columns start stop step self in
      let '(rs, self2) := reads reqs' self1 in
      (r :: rs, self2)
  end.

(** What [__init__] establishes. *)
Definition constructed (self : t) : Prop :=
  size self = Numpy.len (_data self) ∧ dtype self = Numpy.nd_dtype (_data self).

End NPYFile.

Global Instance NPYFile_FileType : FileType NPYFile.t := {|
  ft_open := NPYFile.__init__;
  ft_size := NPYFile.size;
  ft_dtype := NPYFile.dtype;
  ft_read := NPYFile.read;
|}.

(** Modelled from the spec: the range check of the stack and the catalog
    is not in the notebook.  The precondition of [read] is
    [0 <= start <= stop <= size] and [step >= 1]. *)
Definition valid_range (size start stop step : Z) : bool :=
  (0 <=? start) && (start <=? stop) && (stop <=? size) && (1 <=? step).

(** ** Path resolution: explicit lists and glob patterns *)

Module Glob.

(** Modelled from the spec: path resolution is not in the notebook, which
    only calls it with a name, a pattern and a list of names.  A path
    argument is one string or a list of strings. *)
Inductive path_spec : Type :=
  | PathStr (p : string)
  | PathList (ps : list string).

Definition star : Ascii.ascii := "*"%char.

(** Modelled from the spec: a path is a pattern when it contains a
    wildcard character; the notebook speaks of an asterisk glob pattern,
    so the wildcard character is [*]. *)
Definition has_wildcard (p : string) : bool :=
  existsb (Ascii.eqb star) (String.list_ascii_of_string p).

(** Modelled from the spec: the matcher behind the pattern expansion.  A
    [*] stands for any run of characters and every other character for
    itself. *)
Fixpoint fnmatch (pat : list Ascii.ascii) : list Ascii.ascii → bool :=
  match pat with
  | [] => λ name, match name with [] => true | _ => false end
  | c :: pat' =>
      if Ascii.eqb star c
      then fix skip (name : list Ascii.ascii) : bool :=
             fnmatch pat' name ||
             match name with [] => false | _ :: name' => skip name' end
      else λ name,
             match name with
             | [] => false
             | d :: name' => Ascii.eqb c d && fnmatch pat' name'
             end
  end.

Definition matches (pattern name : string) : bool :=
  fnmatch (String.list_ascii_of_string pattern) (String.list_ascii_of_string name).

(** Lexicographic order on paths. *)
Definition path_le (a b : string) : Prop := String.leb a b = true.

Global Instance path_le_dec : RelDecision path_le.
Proof. intros a b. unfold path_le. apply _. Defined.

Global Instance path_le_total : Total path_le.
Proof. intros a b. unfold path_le. apply String.leb_total. Qed.

(** Modelled from the spec: the expansion of a pattern, the names on disk
    that match it, in directory order. *)
Definition glob (fs : gmap string Numpy.ndarray) (pattern : string) : list string :=
  filter (λ name, matches pattern name = true) (map_to_list fs).*1.

(** Modelled from the spec: the names sorted lexicographically. *)
Definition sorted (names : list string) : list string := merge_sort path_le names.

(** Modelled from the spec: a pattern is expanded and sorted; a list is
    taken as it is; a plain path is a one-file list. *)
Definition resolve (fs : gmap string Numpy.ndarray) (path : path_spec) : list string :=
  match path with
  | PathList ps => ps
  | PathStr p => if has_wildcard p then sorted (glob fs p) else [p]
  end.

End Glob.

(** ** The multi-file stack *)

Module FileStack.

(** Modelled from the spec: the binary search over the offset table is
    not in the notebook.  As in [bisect_right(a, x)], the loop halves
    [lo, hi) until it is empty; [fuel] bounds the number of iterations. *)
Fixpoint bisect_loop (fuel : nat) (a : list Z) (x : Z) (lo hi : nat) : option nat :=
  match fuel with
  | O => None
  | S fuel' =>
      if (lo <? hi)%nat then
        let mid := ((lo + hi) / 2)%nat in
        match a !! mid with
        | Some v =>
            if x <? v then bisect_loop fuel' a x lo mid
            else bisect_loop fuel' a x (S mid) hi
        | None => None
        end
      else Some lo
  end.

Definition bisect_right (a : list Z) (x : Z) : option nat :=
  bisect_loop (S (length a)) a x 0%nat (length a).

(** Modelled from the spec: the cumulative-offset table, the prefix sums
    of the sizes starting at [acc], one entry more than [sizes]. *)
Fixpoint cumulative (acc : Z) (sizes : list Z) : list Z :=
  match sizes with
  | [] => [acc]
  | s :: sizes' => acc :: cumulative (acc + s) sizes'
  end.

(** [sum(sizes)] *)
Definition total (sizes : list Z) : Z := foldr Z.add 0 sizes.

(** The table never decreases from one entry to the next. *)
Definition nondecreasing (a : list Z) : Prop :=
  ∀ (i j : nat) x y, (i ≤ j)%nat → a !! i = Some x → a !! j = Some y → x ≤ y.

(** Modelled from the spec: the file handles held by open members,
    acquired at construction and released on destruction. *)
Definition acquire (p : string) (handles : list string) : list string := p :: handles.

Fixpoint release (p : string) (handles : list string) : list string :=
  match handles with
  | [] => []
  | h :: handles' => if decide (h = p) then handles' else h :: release p handles'
  end.

Section Stack.
Context {A : Type} `{FileType A}.

(** Modelled from the spec: the stack of [nbodykit.io] is not in the
    notebook.  An ordered list of members, the cumulative-offset table
    of their sizes, their common dtype and the global size. *)
Record t : Type := {
  files : list A;
  offsets : list Z;
  dtype : Numpy.dtype;
  size : Z;
}.

Definition nfiles (self : t) : nat := length (files self).

(** Modelled from the spec: the schema check of the constructor; all
    members expose the schema of the first one. *)
Definition schema_equal (members : list A) : bool :=
  match members with
  | [] => true
  | f :: members' => forallb (λ g, bool_decide (ft_dtype g = ft_dtype f)) members'
  end.

(** Modelled from the spec: the stack over given members, with the
    offset table derived from their sizes and the global size its last
    entry. *)
Definition make (members : list A) : t :=
  let table := cumulative 0 (ft_size <$> members) in
  {| files := members;
     offsets := table;
     dtype := match members with [] => [] | f :: _ => ft_dtype f end;
     size := default 0 (last table) |}.

(** Modelled from the spec: open the members in order; when one fails,
    the handles of the members opened before it are released. *)
Fixpoint open_all (fs : gmap string Numpy.ndarray) (paths : list string)
    (handles : list string) : result (list A) * list string :=
  match paths with
  | [] => (Ok [], handles)
  | p :: paths' =>
      match ft_open fs p with
      | Err e => (Err e, handles)
      | Ok f =>
          let '(r, handles') := open_all fs paths' (acquire p handles) in
          match r with
          | Ok members => (Ok (f :: members), handles')
          | Err e => (Err e, release p handles')
          end
      end
  end.

(** Modelled from the spec: stack construction.  Zero resolved paths
    is a [ConfigurationError]; a schema mismatch is a [SchemaError],
    raised after the members are released. *)
Definition __init__ (fs : gmap string Numpy.ndarray) (path : Glob.path_spec)
    (handles : list string) : result t * list string :=
  match Glob.resolve fs path with
  | [] => (Err ConfigurationError, handles)
  | paths =>
      let '(r, handles') := open_all fs paths handles in
      match r with
      | Err e => (Err e, handles')
      | Ok members =>
          if schema_equal members then (Ok (make members), handles')
          else (Err SchemaError, foldr release handles' paths)
      end
  end.

(** Modelled from the spec: global row [i] lives in the member found
    by binary search over the offset table, at [i] minus that member's
    offset. *)
Definition locate (self : t) (i : Z) : result (nat * Z) :=
  match bisect_right (offsets self) i with
  | Some (S k) =>
      match offsets self !! k with
      | Some off => Ok (k, i - off)
      | None => Err IndexError
      end
  | _ => Err IndexError
  end.

Definition set_file (k : nat) (f : A) (self : t) : t :=
  {| files := <[k := f]> (files self);
     offsets := offsets self;
     dtype := dtype self;
     size := size self |}.

(** Modelled from the spec: from member [k] on, issue member-local
    reads of step 1 that fill the contiguous rows [cur, stop).  [n] is
    the number of members left. *)
Fixpoint fill (n k : nat) (columns : list string) (cur stop : Z) (self : t)
    : result (list Numpy.row) * t :=
  if stop <=? cur then (Ok [], self)
  else
    match n with
    | O => (Err IndexError, self)
    | S n' =>
        match files self !! k, offsets self !! k, offsets self !! S k with
        | Some f, Some lo, Some hi =>
            let next := Z.min stop hi in
            let '(r, f') := ft_read columns (cur - lo) (next - lo) 1 f in
            let self' := set_file k f' self in
            match r with
            | Err e => (Err e, self')
            | Ok chunk =>
                let '(r', self'') := fill n' (S k) columns next stop self' in
                (rest ← r'; Ok (Numpy.nd_data chunk ++ rest), self'')
            end
        | _, _, _ => (Err IndexError, self)
        end
    end.

(** Modelled from the spec: [read] on the stack.  The range is
    checked, the starting member located, the contiguous rows
    [start, stop) filled from the members, and the step applied to
    that contiguous output.  The output carries the dtype of the stack
    over the records as the members returned them: its fields are those
    of the files when the members return whole records, as [NPYFile]
    does ([returns_records] below). *)
Definition read (columns : list string) (start stop step : Z) (self : t)
    : result Numpy.ndarray * t :=
  if valid_range (size self) start stop step then
    match locate self start with
    | Err e => (Err e, self)
    | Ok (k, _) =>
        let '(r, self') := fill (nfiles self - k) k columns start stop self in
        (rows ← r;
         picked ← Py.getslice rows 0 (Py.len rows) step;
         Ok {| Numpy.nd_dtype := dtype self; Numpy.nd_data := picked |},
         self')
    end
  else (Err RangeError, self).

End Stack.

Arguments t A : clear implicits.

End FileStack.

(** ** The catalog: a stack plus default columns *)

Module CatalogSource.

Definition bool_type : Numpy.field_type := {| Numpy.base := "?"; Numpy.shape := [] |}.
Definition f8 : Numpy.field_type := {| Numpy.base := "f8"; Numpy.shape := [] |}.

(** Modelled from the spec: the default columns are not defined in the
    notebook, which only prints their names.  [Selection] is true
    everywhere, [Weight] and [Value] are 1.0 everywhere. *)
Definition defaults : list (string * (Numpy.field_type * Numpy.value)) :=
  [ ("Selection", (bool_type, Numpy.VBool true));
    ("Weight", (f8, Numpy.VFloat 1));
    ("Value", (f8, Numpy.VFloat 1)) ].

Definition default_value (column : string) : option Numpy.value :=
  (λ found, found.2.2.2) <$> list_find (λ e, e.1 = column) defaults.

Section Catalog.
Context {A : Type} `{FileType A}.

(** Modelled from the spec: the catalog classes of
    [nbodykit.source.catalog] are not in the notebook.  A catalog wraps
    one stack. *)
Record t : Type := {
  name : string;
  source : FileStack.t A;
}.

Definition size (self : t) : Z := FileStack.size (source self).
Definition csize (self : t) : Z := size self.

(** The columns backed by the files. *)
Definition hardcolumns (self : t) : list string :=
  Numpy.names (FileStack.dtype (source self)).

(** Modelled from the spec: the union of the stack's column names and
    the default names, without duplicates; the notebook prints the
    list in sorted order. *)
Definition columns (self : t) : list string :=
  Glob.sorted (remove_dups (hardcolumns self ++ defaults.*1)).

(** Modelled from the spec: one requested column.  A column of the
    stack is taken from what the stack returned, as the field of that
    name under the dtype of the stack; a default column that no file
    backs is a buffer of [n] copies of its value. *)
Definition read_column (self : t) (arr : Numpy.ndarray) (n : nat) (column : string)
    : result (string * list Numpy.value) :=
  if decide (column ∈ hardcolumns self) then
    buf ← Numpy.field arr column; Ok (column, buf)
  else
    match default_value column with
    | Some v => Ok (column, replicate n v)
    | None => Err KeyError
    end.

(** Modelled from the spec: [read] on the catalog.  The columns of the
    stack are delegated to the stack in one read; no file is touched
    when only default columns are asked for. *)
Definition read (columns : list string) (start stop step : Z) (self : t)
    : result (list (string * list Numpy.value)) * t :=
  if valid_range (size self) start stop step then
    let n := Z.to_nat (Py.ceil_div (stop - start) step) in
    let backed := filter (λ c, c ∈ hardcolumns self) columns in
    let '(r, stack') :=
      match backed with
      | [] => (Ok {| Numpy.nd_dtype := FileStack.dtype (source self);
                     Numpy.nd_data := [] |}, source self)
      | _ => FileStack.read backed start stop step (source self)
      end in
    (arr ← r; mapM (read_column self arr n) columns,
     {| name := name self; source := stack' |})
  else (Err RangeError, self).

End Catalog.

Arguments t A : clear implicits.

End CatalogSource.

(** Modelled from the spec: [FileCatalogFactory(name, filetype)] gives the
    constructor of a catalog class over stacks of [filetype]. *)
Definition FileCatalogFactory (name : string) (A : Type) `{FileType A}
    (fs : gmap string Numpy.ndarray) (path : Glob.path_spec) (handles : list string)
    : result (CatalogSource.t A) * list string :=
  let '(r, handles') := FileStack.__init__ fs path handles in
  (stack ← r; Ok {| CatalogSource.name := name; CatalogSource.source := stack |},
   handles').

(** [NPYCatalog = FileCatalogFactory('NPYCatalog', NPYFile)] *)
Definition NPYCatalog := FileCatalogFactory "NPYCatalog" NPYFile.t.

(** ** The contract of an adapter

    Modelled from the spec: the contract that the interface asks of every
    adapter, stated on the operations of [FileType]. *)

Section Contract.
Context {A : Type} `{FileType A}.

(** The whole content: what reading rows [0, size) gives. *)
Definition full_rows (columns : list string) (f : A) : list Numpy.row :=
  match (ft_read columns 0 (ft_size f) 1 f).1 with
  | Ok a => Numpy.nd_data a
  | Err _ => []
  end.

(** What the stack relies on: a read leaves the adapter as it is, the
    whole content has [size] rows, and a read of a valid range is the
    in-memory slice of the whole content. *)
Record adapter_contract (f : A) : Prop := {
  read_only : ∀ columns start stop step,
    (ft_read columns start stop step f).2 = f;
  full_size : ∀ columns, Py.len (full_rows columns f) = ft_size f;
  range_read : ∀ columns start stop step,
    valid_range (ft_size f) start stop step = true →
    Numpy.nd_data <$> (ft_read columns start stop step f).1
    = Py.getslice (full_rows columns f) start stop step;
}.

(** The rows of a stack in the global index space: the members' whole
    contents one after the other. *)
Definition global_rows (columns : list string) (members : list A) : list Numpy.row :=
  mjoin (full_rows columns <$> members).



End Contract.

(** ** Sample data *)

Module Sample.

Definition position_mass : Numpy.dtype :=
  [ ("Position", {| Numpy.base := "f8"; Numpy.shape := [3] |});
    ("Mass", {| Numpy.base := "f8"; Numpy.shape := [] |}) ].

Definition record (i : Z) : Numpy.row :=
  [ Numpy.VArray [inject_Z i; inject_Z (i + 1); inject_Z (i + 2)];
    Numpy.VFloat (inject_Z i) ].

(** An array of [n] records numbered from [first]. *)
Definition table (first n : Z) : Numpy.ndarray :=
  {| Numpy.nd_dtype := position_mass; Numpy.nd_data := record <$> seqZ first n |}.

(** One file, as written by [numpy.save("npy-example.npy", data)]. *)
Definition disk1 : gmap string Numpy.ndarray :=
  {[ "npy-example.npy" := table 0 1024 ]}.

(** Two files of 40 and 60 rows, and a file that the pattern
    [example-*] does not match. *)
Definition disk2 : gmap string Numpy.ndarray :=
  {[ "example-2.npy" := table 40 60;
     "example-1.npy" := table 0 40;
     "other.npy" := table 0 3 ]}.

(** A file that brings its own [Weight] column. *)
Definition weighted : Numpy.ndarray :=
  {| Numpy.nd_dtype :=
       [ ("Mass", {| Numpy.base := "f8"; Numpy.shape := [] |});
         ("Weight", {| Numpy.base := "f8"; Numpy.shape := [] |}) ];
     Numpy.nd_data :=
       [ [Numpy.VFloat 10; Numpy.VFloat 5];
         [Numpy.VFloat 11; Numpy.VFloat 7] ] |}.


(** Two files that both bring a [Weight] column. *)
Definition weighted_more : Numpy.ndarray :=
  {| Numpy.nd_dtype := Numpy.nd_dtype weighted;
     Numpy.nd_data :=
       [ [Numpy.VFloat 12; Numpy.VFloat 9];
         [Numpy.VFloat 13; Numpy.VFloat 2];
         [Numpy.VFloat 14; Numpy.VFloat 3] ] |}.

Definition disk5 : gmap string Numpy.ndarray :=
  {[ "weighted-1.npy" := weighted; "weighted-2.npy" := weighted_more ]}.

(** Two files whose dtypes differ. *)
Definition disk4 : gmap string Numpy.ndarray :=
  {[ "a.npy" := table 0 2; "b.npy" := weighted ]}.

End Sample.

(** ** The script cells of the notebook *)

Module Notebook.

(** [l[start:stop:step]] where a bound or the step may be left out, as in
    [data[:40]] and [data[40:]]: an omitted step is 1, an omitted start is
    the first item in the direction of the step, an omitted stop runs to
    the end in that direction. *)
Definition getslice_opt {A} (l : list A) (start stop step : option Z)
    : result (list A) :=
  let step := default 1 step in
  if step =? 0 then Err ValueError
  else
    let n := Py.len l in
    let lower := if step <? 0 then -1 else 0 in
    let upper := if step <? 0 then n - 1 else n in
    let s := match start with
             | Some i => Py.adjust n lower upper i
             | None => if step <? 0 then upper else lower
             end in
    let e := match stop with
             | Some i => Py.adjust n lower upper i
             | None => if step <? 0 then lower else upper
             end in
    Ok (omap (λ k, l !! Z.to_nat (s + k * step)) (seqZ 0 (Py.slice_length s e step))).

(** The cell that prepares the two-file example: [data[:40]] goes to the
    first file and [data[40:]] to the second. *)
Definition split_rows {A} (data : list A) : result (list A * list A) :=
  first ← getslice_opt data None (Some 40) None;
  rest ← getslice_opt data (Some 40) None None;
  Ok (first, rest).

End Notebook.

Example getslice_ex1 : Py.getslice [10; 11; 12; 13; 14] 1 5 2 = Ok [11; 13].
Proof. reflexivity. Qed.
Example getslice_ex2 : Py.getslice [10; 11; 12; 13; 14] (-2) 9 1 = Ok [13; 14].
Proof. reflexivity. Qed.
Example getslice_ex3 : Py.getslice [10; 11; 12; 13; 14] 4 0 (-2) = Ok [14; 12].
Proof. reflexivity. Qed.
Example getslice_ex4 : Py.getslice [10; 11; 12] 0 3 0 = Err ValueError.
Proof. reflexivity. Qed.
Example ceil_div_ex : Py.ceil_div 7 2 = 4 ∧ Py.ceil_div 6 2 = 3 ∧ Py.ceil_div 0 5 = 0.
Proof. repeat split. Qed.

(** * Facts *)

(** ** Slices *)

Section SliceFacts.
Context {A : Type}.
Implicit Types (l : list A) (start stop step : Z).

Lemma ceil_div_pos a b : 1 ≤ a → 1 ≤ b → Py.ceil_div a b = (a - 1) / b + 1.
Proof.
  intros Ha Hb. unfold Py.ceil_div.
  pose proof (Z.div_mod (a - 1) b ltac:(lia)) as Hdm.
  pose proof (Z.mod_pos_bound (a - 1) b ltac:(lia)) as Hr.
  assert (- a / b = - ((a - 1) / b + 1)) as ->; [|lia].
  symmetry. apply (Z.div_unique _ _ _ (b - 1 - (a - 1) mod b)); lia.
Qed.

Lemma ceil_div_nonpos a b : a ≤ 0 → 1 ≤ b → Py.ceil_div a b ≤ 0.
Proof.
  intros Ha Hb. unfold Py.ceil_div.
  assert (0 ≤ - a / b) by (apply Z.div_pos; lia). lia.
Qed.

Lemma ceil_div_0 b : Py.ceil_div 0 b = 0.
Proof. unfold Py.ceil_div. simpl. by rewrite Zdiv_0_l. Qed.

Lemma slice_length_ceil start stop step :
  start ≤ stop → 1 ≤ step →
  Py.slice_length start stop step = Py.ceil_div (stop - start) step.
Proof.
  intros Hle Hstep. unfold Py.slice_length.
  destruct (Z.ltb_spec step 0); [lia|].
  destruct (Z.ltb_spec start stop).
  - by rewrite ceil_div_pos by lia.
  - replace (stop - start) with 0 by lia. by rewrite ceil_div_0.
Qed.

Lemma slice_length_max start stop step :
  1 ≤ step →
  Py.slice_length start stop step = Z.max 0 (Py.ceil_div (stop - start) step).
Proof.
  intros Hstep. destruct (Z.le_gt_cases start stop).
  - rewrite slice_length_ceil by done.
    destruct (Z.eq_dec start stop) as [->|].
    + rewrite Z.sub_diag, ceil_div_0. done.
    + rewrite ceil_div_pos by lia.
      assert (0 ≤ (stop - start - 1) / step) by (apply Z.div_pos; lia). lia.
  - pose proof (ceil_div_nonpos (stop - start) step ltac:(lia) Hstep).
    unfold Py.slice_length.
    destruct (Z.ltb_spec step 0); [lia|].
    destruct (Z.ltb_spec start stop); lia.
Qed.

Lemma slice_indices_valid n start stop step :
  0 ≤ start → start ≤ stop → stop ≤ n → 1 ≤ step →
  Py.slice_indices n start stop step = (start, stop).
Proof.
  intros. unfold Py.slice_indices, Py.adjust.
  destruct (Z.ltb_spec step 0); [lia|].
  destruct (Z.ltb_spec start 0); [lia|].
  destruct (Z.ltb_spec stop 0); [lia|].
  f_equal; lia.
Qed.

(** The last index a slice touches lies below [stop]. *)
Lemma stride_below_stop start stop step k :
  1 ≤ step → 0 ≤ k → k < Py.ceil_div (stop - start) step →
  start + k * step < stop.
Proof.
  intros Hstep Hk Hlt.
  destruct (Z.le_gt_cases (stop - start) 0) as [Hle|Hgt].
  - pose proof (ceil_div_nonpos _ _ Hle Hstep). lia.
  - rewrite ceil_div_pos in Hlt by lia.
    assert (k ≤ (stop - start - 1) / step) as Hk' by lia.
    pose proof (Z.mul_div_le (stop - start - 1) step ltac:(lia)).
    nia.
Qed.

Lemma omap_all_Some {B C} (f : B → option C) (xs : list B) :
  Forall (λ x, is_Some (f x)) xs →
  Forall2 (λ x y, f x = Some y) xs (omap f xs).
Proof.
  induction 1 as [|x xs [y Hy] _ IH]; simpl; [constructor|].
  rewrite Hy. by constructor.
Qed.

(** A valid slice, seen through lookups: it has [ceil((stop-start)/step)]
    items, and item [i] is item [start + i*step] of the list. *)
Lemma getslice_valid l start stop step :
  0 ≤ start → start ≤ stop → stop ≤ Py.len l → 1 ≤ step →
  ∃ rows, Py.getslice l start stop step = Ok rows
    ∧ Py.len rows = Py.ceil_div (stop - start) step
    ∧ ∀ i : nat, Z.of_nat i < Py.ceil_div (stop - start) step →
        rows !! i = l !! Z.to_nat (start + Z.of_nat i * step).
Proof.
  intros H0 Hle Hn Hstep. unfold Py.getslice.
  destruct (Z.eqb_spec step 0); [lia|].
  rewrite slice_indices_valid by done.
  rewrite slice_length_ceil by done.
  set (cnt := Py.ceil_div (stop - start) step).
  set (f := λ k : Z, l !! Z.to_nat (start + k * step)).
  assert (Forall (λ k, is_Some (f k)) (seqZ 0 cnt)) as Hall.
  { apply Forall_forall. intros k Hk. apply elem_of_seqZ in Hk.
    apply lookup_lt_is_Some.
    pose proof (stride_below_stop start stop step k Hstep ltac:(lia) ltac:(lia)).
    unfold Py.len in Hn. lia. }
  apply omap_all_Some in Hall.
  eexists. split; [done|]. split.
  - unfold Py.len. rewrite <- (Forall2_length _ _ _ Hall), length_seqZ.
    assert (0 ≤ cnt); [|lia].
    subst cnt. rewrite <- slice_length_ceil by done.
    rewrite slice_length_max by done. lia.
  - intros i Hi.
    assert (seqZ 0 cnt !! i = Some (Z.of_nat i)) as Hs.
    { rewrite lookup_seqZ. lia. }
    destruct (Forall2_lookup_l _ _ _ _ _ Hall Hs) as (y & Hy & Hfy).
    rewrite Hy. by rewrite <- Hfy.
Qed.

(** Two lists that agree through lookups below a common length. *)
Lemma list_eq_below l1 l2 (n : Z) :
  Py.len l1 = n → Py.len l2 = n →
  (∀ i : nat, Z.of_nat i < n → l1 !! i = l2 !! i) → l1 = l2.
Proof.
  unfold Py.len. intros H1 H2 Hi. apply list_eq. intros i.
  destruct (Z.lt_ge_cases (Z.of_nat i) n) as [Hlt|Hge]; [by apply Hi|].
  rewrite !lookup_ge_None_2; [done|lia..].
Qed.

(** With step 1 a valid slice is [take] after [drop]. *)
Lemma getslice_contiguous l start stop :
  0 ≤ start → start ≤ stop → stop ≤ Py.len l →
  Py.getslice l start stop 1
  = Ok (take (Z.to_nat (stop - start)) (drop (Z.to_nat start) l)).
Proof.
  intros H0 Hle Hn.
  destruct (getslice_valid l start stop 1) as (rows & -> & Hlen & Hrows); [lia..|].
  assert (Py.ceil_div (stop - start) 1 = stop - start) as Hc.
  { unfold Py.ceil_div. rewrite Z.div_1_r. lia. }
  rewrite Hc in *. f_equal.
  apply (list_eq_below _ _ (stop - start)); [done| |].
  - unfold Py.len in *. rewrite length_take, length_drop. lia.
  - intros i Hi. rewrite Hrows by done.
    rewrite lookup_take_lt by lia. rewrite lookup_drop. f_equal. lia.
Qed.

Lemma getslice_all l : Py.getslice l 0 (Py.len l) 1 = Ok l.
Proof.
  rewrite getslice_contiguous by (unfold Py.len; lia).
  rewrite Z.sub_0_r. unfold Py.len. rewrite Nat2Z.id. simpl.
  by rewrite take_ge.
Qed.

(** Applying the step to the contiguous rows [start, stop) is the slice
    [start:stop:step] of the whole list. *)
Lemma getslice_stride_contiguous l start stop step :
  0 ≤ start → start ≤ stop → stop ≤ Py.len l → 1 ≤ step →
  let rows := take (Z.to_nat (stop - start)) (drop (Z.to_nat start) l) in
  Py.getslice rows 0 (Py.len rows) step = Py.getslice l start stop step.
Proof.
  intros H0 Hle Hn Hstep rows.
  assert (Py.len rows = stop - start) as Hlen.
  { unfold rows, Py.len in *. rewrite length_take, length_drop. lia. }
  destruct (getslice_valid l start stop step) as (r1 & -> & Hl1 & Hr1); [lia..|].
  destruct (getslice_valid rows 0 (Py.len rows) step) as (r2 & -> & Hl2 & Hr2); [lia..|].
  rewrite Hlen, Z.sub_0_r in *. f_equal.
  apply (list_eq_below _ _ (Py.ceil_div (stop - start) step)); [done..|].
  intros i Hi. rewrite Hr1, Hr2 by done.
  pose proof (stride_below_stop start stop step (Z.of_nat i) Hstep ltac:(lia) Hi).
  unfold rows. rewrite lookup_take_lt by lia. rewrite lookup_drop. f_equal. lia.
Qed.

Lemma omap_fmap_commute {B C D} (f : C → D) (g : B → option C) (h : B → option D)
    (xs : list B) :
  (∀ x, h x = f <$> g x) → omap h xs = f <$> omap g xs.
Proof.
  intros Hh. induction xs as [|x xs IH]; [done|].
  cbn [omap list_omap]. rewrite Hh.
  destruct (g x); simpl; [f_equal|]; apply IH.
Qed.

(** Slicing commutes with mapping over the items. *)
Lemma getslice_fmap {B} (f : A → B) l start stop step :
  Py.getslice (f <$> l) start stop step
  = fmap (M := list) f <$> Py.getslice l start stop step.
Proof.
  unfold Py.getslice, Py.len. rewrite length_fmap.
  destruct (step =? 0); [done|].
  destruct (Py.slice_indices _ _ _ _) as [s e]. simpl. f_equal.
  apply omap_fmap_commute. intros k. apply list_lookup_fmap.
Qed.

End SliceFacts.

(** ** The cumulative-offset table and its binary search *)

Section TableFacts.
Implicit Types (sizes a : list Z) (acc x : Z).

Lemma total_app sizes1 sizes2 :
  FileStack.total (sizes1 ++ sizes2) = FileStack.total sizes1 + FileStack.total sizes2.
Proof.
  unfold FileStack.total. induction sizes1 as [|s sizes1 IH]; simpl; lia.
Qed.

Lemma total_nonneg sizes : Forall (λ s, 0 ≤ s) sizes → 0 ≤ FileStack.total sizes.
Proof. unfold FileStack.total. induction 1; simpl; lia. Qed.

Lemma total_take_le sizes (i j : nat) :
  Forall (λ s, 0 ≤ s) sizes → (i ≤ j)%nat →
  FileStack.total (take i sizes) ≤ FileStack.total (take j sizes).
Proof.
  intros Hpos Hij.
  replace j with (i + (j - i))%nat by lia.
  rewrite <- take_take_drop, total_app.
  assert (0 ≤ FileStack.total (take (j - i) (drop i sizes))); [|lia].
  apply total_nonneg. by apply Forall_take, Forall_drop.
Qed.

Lemma total_take_S sizes (k : nat) s :
  sizes !! k = Some s →
  FileStack.total (take (S k) sizes) = FileStack.total (take k sizes) + s.
Proof.
  intros Hk. rewrite (take_S_r _ _ _ Hk), total_app.
  change (FileStack.total [s]) with (s + 0). lia.
Qed.

Lemma length_cumulative acc sizes :
  length (FileStack.cumulative acc sizes) = S (length sizes).
Proof. revert acc. induction sizes as [|s sizes IH]; intros acc; simpl; [done|]. by rewrite IH. Qed.

(** Entry [k] of the table is the sum of the first [k] sizes. *)
Lemma lookup_cumulative acc sizes (k : nat) :
  (k ≤ length sizes)%nat →
  FileStack.cumulative acc sizes !! k = Some (acc + FileStack.total (take k sizes)).
Proof.
  revert acc k. induction sizes as [|s sizes IH]; intros acc [|k] Hk; simpl in *.
  - f_equal. unfold FileStack.total. simpl. lia.
  - lia.
  - f_equal. unfold FileStack.total. simpl. lia.
  - rewrite IH by lia. f_equal. unfold FileStack.total. simpl. lia.
Qed.

Lemma last_cumulative acc sizes :
  last (FileStack.cumulative acc sizes) = Some (acc + FileStack.total sizes).
Proof.
  rewrite last_lookup, length_cumulative. simpl.
  rewrite lookup_cumulative by done. by rewrite take_ge.
Qed.

Lemma cumulative_nondecreasing acc sizes :
  Forall (λ s, 0 ≤ s) sizes → FileStack.nondecreasing (FileStack.cumulative acc sizes).
Proof.
  intros Hpos i j x y Hij Hi Hj.
  assert (j ≤ length sizes)%nat as Hjn.
  { apply lookup_lt_Some in Hj. rewrite length_cumulative in Hj. lia. }
  rewrite lookup_cumulative in Hi, Hj by lia.
  pose proof (total_take_le sizes i j Hpos Hij). naive_solver lia.
Qed.

(** The loop invariant of [bisect_right]: everything left of [lo] is at
    most [x], everything from [hi] on is above [x]. *)
Lemma bisect_loop_spec fuel a x (lo hi : nat) :
  FileStack.nondecreasing a →
  (lo ≤ hi)%nat → (hi ≤ length a)%nat → (hi - lo < fuel)%nat →
  (∀ (j : nat) v, (j < lo)%nat → a !! j = Some v → v ≤ x) →
  (∀ (j : nat) v, (hi ≤ j)%nat → a !! j = Some v → x < v) →
  ∃ r : nat, FileStack.bisect_loop fuel a x lo hi = Some r
    ∧ (lo ≤ r ≤ hi)%nat
    ∧ (∀ (j : nat) v, (j < r)%nat → a !! j = Some v → v ≤ x)
    ∧ (∀ (j : nat) v, (r ≤ j)%nat → a !! j = Some v → x < v).
Proof.
  intros Hmono. revert lo hi.
  induction fuel as [|fuel IH]; intros lo hi Hle Hhi Hfuel Hlo Hup; [lia|].
  cbn [FileStack.bisect_loop]. destruct (Nat.ltb_spec lo hi) as [Hlt|Hge].
  - pose proof (Nat.div_mod_eq (lo + hi) 2) as Hdm.
    pose proof (Nat.mod_upper_bound (lo + hi) 2 ltac:(lia)) as Hmod.
    set (mid := ((lo + hi) / 2)%nat) in *.
    assert (lo ≤ mid < hi)%nat as [Hm1 Hm2] by lia.
    destruct (lookup_lt_is_Some_2 a mid ltac:(lia)) as [v Hv].
    rewrite Hv. destruct (Z.ltb_spec x v) as [Hxv|Hvx].
    + destruct (IH lo mid) as (r & Hr & Hb & Hrest); [lia..|done| |].
      { intros j w Hj Hw. pose proof (Hmono mid j v w Hj Hv Hw). lia. }
      exists r. split; [done|]. split; [lia|done].
    + destruct (IH (S mid) hi) as (r & Hr & Hb & Hrest); [lia..| |done|].
      { intros j w Hj Hw. pose proof (Hmono j mid w v ltac:(lia) Hw Hv). lia. }
      exists r. split; [done|]. split; [lia|done].
  - exists lo. split; [done|]. split; [lia|]. split; [done|].
    intros j v Hj. apply Hup. lia.
Qed.

(** [bisect_right] returns, and what it returns is the number of entries
    that are at most [x]. *)
Lemma bisect_right_spec a x :
  FileStack.nondecreasing a →
  ∃ r : nat, FileStack.bisect_right a x = Some r
    ∧ (r ≤ length a)%nat
    ∧ (∀ (j : nat) v, (j < r)%nat → a !! j = Some v → v ≤ x)
    ∧ (∀ (j : nat) v, (r ≤ j)%nat → a !! j = Some v → x < v).
Proof.
  intros Hmono. unfold FileStack.bisect_right.
  destruct (bisect_loop_spec (S (length a)) a x 0 (length a))
    as (r & Hr & Hb & Hrest); [done|lia..| | |].
  - intros j v Hj. lia.
  - intros j v Hj Hv. apply lookup_lt_Some in Hv. lia.
  - exists r. split; [done|]. split; [lia|done].
Qed.

End TableFacts.

(** ** The stack *)

Section StackFacts.
Context {A : Type} `{FileType A}.
Implicit Types (members : list A) (self : FileStack.t A) (f : A).

Local Abbreviation sizes members := (ft_size <$> members).
Local Abbreviation off members k := (FileStack.total (take k (ft_size <$> members))).

Lemma make_offsets_lookup members (k : nat) :
  (k ≤ length members)%nat →
  FileStack.offsets (FileStack.make members) !! k = Some (off members k).
Proof.
  intros Hk. simpl. by rewrite lookup_cumulative by (by rewrite length_fmap).
Qed.

(** The global size is the sum of the member sizes. *)
Lemma make_size members :
  FileStack.size (FileStack.make members) = FileStack.total (sizes members).
Proof. simpl. rewrite last_cumulative. simpl. lia. Qed.

Lemma make_nondecreasing members :
  Forall (λ f, 0 ≤ ft_size f) members →
  FileStack.nondecreasing (FileStack.offsets (FileStack.make members)).
Proof.
  intros Hpos. simpl. apply cumulative_nondecreasing.
  by apply Forall_fmap.
Qed.

Lemma off_S members (k : nat) f :
  members !! k = Some f → off members (S k) = off members k + ft_size f.
Proof.
  intros Hk. apply total_take_S. by rewrite list_lookup_fmap, Hk.
Qed.

Lemma off_all members (k : nat) :
  (length members ≤ k)%nat → off members k = FileStack.total (sizes members).
Proof. intros Hk. rewrite take_ge; [done|]. by rewrite length_fmap. Qed.

Lemma off_mono members (i j : nat) :
  Forall (λ f, 0 ≤ ft_size f) members → (i ≤ j)%nat → off members i ≤ off members j.
Proof. intros Hpos Hij. apply total_take_le; [|done]. by apply Forall_fmap. Qed.

(** The binary search finds, for a global index, the member whose range
    of global indices holds it, and the index local to that member. *)
Lemma locate_spec members (i : Z) :
  Forall (λ f, 0 ≤ ft_size f) members →
  0 ≤ i → i ≤ FileStack.total (sizes members) →
  ∃ k : nat, FileStack.locate (FileStack.make members) i = Ok (k, i - off members k)
    ∧ (k ≤ length members)%nat
    ∧ off members k ≤ i
    ∧ (i < FileStack.total (sizes members) →
         (k < length members)%nat ∧ i < off members (S k)).
Proof.
  intros Hpos H0 Hn.
  destruct (bisect_right_spec (FileStack.offsets (FileStack.make members)) i
              (make_nondecreasing members Hpos)) as (r & Hr & Hlen & Hbelow & Habove).
  unfold FileStack.locate. rewrite Hr.
  destruct r as [|k].
  { pose proof (make_offsets_lookup members 0 ltac:(lia)) as H00.
    specialize (Habove 0%nat _ ltac:(lia) H00).
    rewrite take_0 in Habove. unfold FileStack.total in Habove. simpl in Habove. lia. }
  assert (k ≤ length members)%nat as Hk.
  { simpl in Hlen. rewrite length_cumulative, length_fmap in Hlen. lia. }
  rewrite make_offsets_lookup by done.
  exists k. split; [done|]. split; [done|]. split.
  { apply (Hbelow k); [lia|]. by apply make_offsets_lookup. }
  intros Hlt.
  assert (k < length members)%nat as Hk'.
  { destruct (Nat.eq_dec k (length members)) as [->|]; [|lia].
    pose proof (make_offsets_lookup members (length members) ltac:(lia)) as Hlast.
    pose proof (Hbelow (length members) _ ltac:(lia) Hlast) as Hb.
    rewrite off_all in Hb by lia. lia. }
  split; [done|].
  apply (Habove (S k)); [lia|]. apply make_offsets_lookup. lia.
Qed.

Lemma set_file_same self (k : nat) f :
  FileStack.files self !! k = Some f → FileStack.set_file k f self = self.
Proof.
  intros Hk. destruct self as [fl ofs dt sz]. unfold FileStack.set_file. simpl in *.
  by rewrite list_insert_id.
Qed.

(** When no member is changed by a read, the stack is not changed by
    filling a range from its members. *)
Lemma fill_state (n k : nat) columns cur stop self :
  Forall (λ f, ∀ cs a b c, (ft_read cs a b c f).2 = f) (FileStack.files self) →
  (FileStack.fill n k columns cur stop self).2 = self.
Proof.
  intros Hro. revert k cur.
  induction n as [|n IH]; intros k cur; simpl.
  { by destruct (stop <=? cur). }
  destruct (stop <=? cur); [done|].
  destruct (FileStack.files self !! k) as [f|] eqn:Hf; [|done].
  destruct (FileStack.offsets self !! k) as [lo|]; [|done].
  destruct (FileStack.offsets self !! S k) as [hi|]; [|done].
  pose proof (proj1 (Forall_lookup _ _) Hro k f Hf) as Hfro.
  specialize (Hfro columns (cur - lo) (Z.min stop hi - lo) 1).
  destruct (ft_read columns (cur - lo) (Z.min stop hi - lo) 1 f) as [r f'].
  simpl in Hfro. subst f'. rewrite set_file_same by done.
  destruct r as [chunk|e]; [|done].
  specialize (IH (S k) (Z.min stop hi)).
  destruct (FileStack.fill n (S k) columns (Z.min stop hi) stop self) as [r' self''].
  done.
Qed.

Lemma read_state columns start stop step self :
  Forall (λ f, ∀ cs a b c, (ft_read cs a b c f).2 = f) (FileStack.files self) →
  (FileStack.read columns start stop step self).2 = self.
Proof.
  intros Hro. unfold FileStack.read.
  destruct (valid_range _ _ _ _); [|done].
  destruct (FileStack.locate self start) as [[k l]|e]; [|done].
  pose proof (fill_state (FileStack.nfiles self - k) k columns start stop self Hro) as Hst.
  destruct (FileStack.fill _ _ _ _ _ _) as [r self']. done.
Qed.

(** Reading one row at global index [i] is one read of one row from the
    member that [locate] names, at the local index it names. *)
Lemma read_one_row members columns (i : Z) :
  Forall (λ f, 0 ≤ ft_size f) members →
  0 ≤ i → i < FileStack.size (FileStack.make members) →
  ∃ (k : nat) (l : Z) f,
    FileStack.locate (FileStack.make members) i = Ok (k, l)
    ∧ members !! k = Some f
    ∧ FileStack.offsets (FileStack.make members) !! k = Some (i - l)
    ∧ 0 ≤ l ∧ l < ft_size f
    ∧ Numpy.nd_data <$> (FileStack.read columns i (i + 1) 1 (FileStack.make members)).1
      = Numpy.nd_data <$> (ft_read columns l (l + 1) 1 f).1.
Proof.
  intros Hpos H0 Hlt. rewrite make_size in Hlt.
  destruct (locate_spec members i Hpos H0 ltac:(lia)) as (k & Hloc & _ & Hlo & Hhi).
  destruct (Hhi Hlt) as [Hk Hup].
  destruct (lookup_lt_is_Some_2 members k Hk) as [f Hf].
  rewrite (off_S _ _ _ Hf) in Hup.
  exists k, (i - off members k), f.
  split; [done|]. split; [done|]. split.
  { rewrite make_offsets_lookup by lia. f_equal. lia. }
  split; [lia|]. split; [lia|].
  unfold FileStack.read. rewrite make_size.
  assert (valid_range (FileStack.total (sizes members)) i (i + 1) 1 = true) as ->.
  { unfold valid_range. repeat (apply andb_true_intro; split); apply Z.leb_le; lia. }
  rewrite Hloc.
  assert (FileStack.nfiles (FileStack.make members) - k = S (length members - S k))%nat
    as -> by (unfold FileStack.nfiles; simpl; lia).
  cbn [FileStack.fill].
  destruct (Z.leb_spec (i + 1) i); [lia|].
  change (FileStack.files (FileStack.make members)) with members. rewrite Hf.
  rewrite !make_offsets_lookup by lia. rewrite (off_S _ _ _ Hf).
  rewrite Z.min_l by lia.
  replace (i + 1 - off members k) with (i - off members k + 1) by lia.
  destruct (ft_read columns (i - off members k) (i - off members k + 1) 1 f)
    as [[chunk|e] f']; [|done].
  destruct (length members - S k)%nat; cbn [FileStack.fill];
    rewrite Z.leb_refl; cbn [mbind result_bind fst];
    rewrite app_nil_r, getslice_all; done.
Qed.

End StackFacts.

(** ** Stacks of adapters that meet the contract *)

Lemma valid_range_true size start stop step :
  valid_range size start stop step = true ↔ 0 ≤ start ∧ start ≤ stop ∧ stop ≤ size ∧ 1 ≤ step.
Proof. unfold valid_range. rewrite !andb_true_iff, !Z.leb_le. tauto. Qed.

Lemma valid_range_false size start stop step :
  valid_range size start stop step = false ↔ ¬ (0 ≤ start ∧ start ≤ stop ∧ stop ≤ size ∧ 1 ≤ step).
Proof. rewrite <- valid_range_true. by destruct (valid_range _ _ _ _). Qed.

(** The rows [cur, stop) of a list that has a block [block] starting at
    [lo]: the part inside the block up to [next], then the rest. *)
Lemma take_drop_block {B} (before block after : list B) (lo cur next stop : nat) :
  length before = lo → (lo ≤ cur)%nat → (cur ≤ next)%nat →
  (next ≤ lo + length block)%nat → (next ≤ stop)%nat →
  take (stop - cur) (drop cur (before ++ block ++ after))
  = take (next - cur) (drop (cur - lo) block)
    ++ take (stop - next) (drop next (before ++ block ++ after)).
Proof.
  intros Hlo H1 H2 H3 H4.
  replace (stop - cur)%nat with ((next - cur) + (stop - next))%nat by lia.
  rewrite <- take_take_drop. rewrite drop_drop.
  replace (cur + (next - cur))%nat with next by lia. f_equal.
  rewrite drop_app_ge by lia. rewrite Hlo.
  rewrite drop_app_le by lia.
  apply take_app_le. rewrite length_drop. lia.
Qed.

Section ContractFacts.
Context {A : Type} `{FileType A}.
Implicit Types (members : list A) (f : A).

Local Abbreviation sizes members := (ft_size <$> members).
Local Abbreviation off members k := (FileStack.total (take k (ft_size <$> members))).

Lemma contract_size_nonneg f : adapter_contract f → 0 ≤ ft_size f.
Proof. intros Hc. rewrite <- (full_size f Hc []). unfold Py.len. lia. Qed.

Lemma contract_sizes_nonneg members :
  Forall adapter_contract members → Forall (λ f, 0 ≤ ft_size f) members.
Proof. intros Hc. eapply Forall_impl; [done|]. apply contract_size_nonneg. Qed.

Lemma contract_read_only members :
  Forall adapter_contract members →
  Forall (λ f, ∀ cs a b c, (ft_read cs a b c f).2 = f) members.
Proof. intros Hc. eapply Forall_impl; [done|]. intros f Hf. apply (read_only f Hf). Qed.

(** The global rows are as many as the global size. *)
Lemma global_rows_len columns members :
  Forall adapter_contract members →
  Py.len (global_rows columns members) = FileStack.total (sizes members).
Proof.
  unfold global_rows, Py.len, FileStack.total.
  induction 1 as [|f members Hf _ IH]; [done|].
  rewrite !fmap_cons. cbn [mjoin list_join foldr].
  rewrite length_app, Nat2Z.inj_add.
  f_equal; [apply (full_size f Hf columns)|exact IH].
Qed.

Lemma global_rows_split columns members (k : nat) f :
  members !! k = Some f →
  global_rows columns members
  = global_rows columns (take k members)
    ++ full_rows columns f ++ global_rows columns (drop (S k) members).
Proof.
  intros Hk. unfold global_rows.
  rewrite <- (take_drop_middle members k f Hk) at 1.
  by rewrite fmap_app, join_app.
Qed.

Lemma global_rows_take_len columns members (k : nat) :
  Forall adapter_contract members →
  Py.len (global_rows columns (take k members)) = off members k.
Proof.
  intros Hc. rewrite global_rows_len by (by apply Forall_take).
  by rewrite fmap_take.
Qed.

(** A member-local read of step 1 gives the rows of the member's whole
    content in that range, and leaves the member as it is. *)
Lemma contract_chunk f columns (lo hi : Z) :
  adapter_contract f → 0 ≤ lo → lo ≤ hi → hi ≤ ft_size f →
  ∃ chunk, ft_read columns lo hi 1 f = (Ok chunk, f)
    ∧ Numpy.nd_data chunk
      = take (Z.to_nat (hi - lo)) (drop (Z.to_nat lo) (full_rows columns f)).
Proof.
  intros Hc H0 Hle Hhi.
  pose proof (read_only f Hc columns lo hi 1) as Hro.
  pose proof (range_read f Hc columns lo hi 1) as Hrr.
  rewrite getslice_contiguous in Hrr by (rewrite ?(full_size f Hc); lia).
  specialize (Hrr ltac:(apply valid_range_true; lia)).
  destruct (ft_read columns lo hi 1 f) as [[chunk|e] f']; simpl in *; [|done].
  exists chunk. split; [by subst|]. by injection Hrr.
Qed.

(** Filling [cur, stop) from member [k] on gives exactly the global rows
    [cur, stop), and leaves the stack as it is. *)
Lemma fill_spec members columns (stop : Z) (n k : nat) (cur : Z) :
  Forall adapter_contract members →
  stop ≤ FileStack.total (sizes members) →
  (n + k = length members)%nat → 0 ≤ cur →
  (cur < stop → off members k ≤ cur ∧ cur ≤ off members (S k)) →
  FileStack.fill n k columns cur stop (FileStack.make members)
  = (Ok (take (Z.to_nat (stop - cur))
           (drop (Z.to_nat cur) (global_rows columns members))),
     FileStack.make members).
Proof.
  intros Hc Hstop. revert k cur.
  induction n as [|n IH]; intros k cur Hnk H0 Hinv; cbn [FileStack.fill];
    destruct (Z.leb_spec stop cur) as [Hdone|Hmore];
    try (by replace (Z.to_nat (stop - cur)) with 0%nat by lia).
  { destruct (Hinv Hmore) as [Hlo _]. rewrite off_all in Hlo by lia. lia. }
  destruct (Hinv Hmore) as [Hlo Hhi].
  destruct (lookup_lt_is_Some_2 members k ltac:(lia)) as [f Hf].
  pose proof (proj1 (Forall_lookup _ _) Hc k f Hf) as Hcf.
  change (FileStack.files (FileStack.make members)) with members. rewrite Hf.
  rewrite !make_offsets_lookup by lia.
  rewrite (off_S _ _ _ Hf) in *.
  set (lo := off members k) in *.
  set (next := Z.min stop (lo + ft_size f)).
  destruct (contract_chunk f columns (cur - lo) (next - lo) Hcf)
    as (chunk & -> & Hchunk); [lia..|].
  rewrite set_file_same by done.
  rewrite (IH (S k) next); [|lia..|].
  2:{ intros Hnext. assert (next = lo + ft_size f) as Hn by lia.
      split; [rewrite (off_S _ _ _ Hf); fold lo; lia|].
      pose proof (off_mono members (S k) (S (S k))
                    (contract_sizes_nonneg _ Hc) ltac:(lia)) as Hm.
      rewrite (off_S _ _ _ Hf) in Hm. fold lo in Hm. lia. }
  cbn [mbind result_bind]. f_equal. f_equal. rewrite Hchunk.
  rewrite (global_rows_split columns members k f Hf).
  pose proof (global_rows_take_len columns members k Hc) as Hbefore.
  pose proof (full_size f Hcf columns) as Hblock.
  unfold Py.len in Hbefore, Hblock. fold lo in Hbefore.
  replace (Z.to_nat (stop - cur)) with (Z.to_nat stop - Z.to_nat cur)%nat by lia.
  replace (Z.to_nat (stop - next)) with (Z.to_nat stop - Z.to_nat next)%nat by lia.
  replace (Z.to_nat (next - lo - (cur - lo)))
    with (Z.to_nat next - Z.to_nat cur)%nat by lia.
  replace (Z.to_nat (cur - lo)) with (Z.to_nat cur - Z.to_nat lo)%nat by lia.
  symmetry. apply take_drop_block; lia.
Qed.

(** A read of a valid range on the stack is the in-memory slice of the
    global rows, under the stack's dtype, and leaves the stack as it is. *)
Lemma read_spec members columns start stop step :
  Forall adapter_contract members →
  valid_range (FileStack.size (FileStack.make members)) start stop step = true →
  FileStack.read columns start stop step (FileStack.make members)
  = ((λ rows, {| Numpy.nd_dtype := FileStack.dtype (FileStack.make members);
                 Numpy.nd_data := rows |})
       <$> Py.getslice (global_rows columns members) start stop step,
     FileStack.make members).
Proof.
  intros Hc Hvalid. unfold FileStack.read. rewrite Hvalid.
  apply valid_range_true in Hvalid. rewrite make_size in Hvalid.
  destruct Hvalid as (H0 & Hle & Hn & Hstep).
  destruct (locate_spec members start (contract_sizes_nonneg _ Hc) H0 ltac:(lia))
    as (k & -> & Hk & Hlo & Hhi).
  rewrite (fill_spec members columns stop); [|done|lia|unfold FileStack.nfiles; simpl; lia|lia|].
  2:{ intros Hlt. split; [done|]. destruct Hhi as [_ Hhi]; lia. }
  cbn [mbind result_bind]. f_equal.
  pose proof (global_rows_len columns members Hc) as Hlen.
  rewrite (getslice_stride_contiguous (global_rows columns members) start stop step)
    by lia.
  by destruct (Py.getslice _ _ _ _).
Qed.

(** The whole content of the stack: rows [0, size) are the global rows. *)
Lemma read_full members columns :
  Forall adapter_contract members →
  FileStack.read columns 0 (FileStack.size (FileStack.make members)) 1
    (FileStack.make members)
  = (Ok {| Numpy.nd_dtype := FileStack.dtype (FileStack.make members);
           Numpy.nd_data := global_rows columns members |},
     FileStack.make members).
Proof.
  intros Hc.
  pose proof (total_nonneg (sizes members)
                (proj2 (Forall_fmap _ _ _) (contract_sizes_nonneg _ Hc))) as Hpos.
  rewrite read_spec; [|done|rewrite make_size; apply valid_range_true; lia].
  rewrite make_size, <- (global_rows_len columns members Hc).
  by rewrite getslice_all.
Qed.

End ContractFacts.

(** ** The [NPYFile] adapter *)

Lemma NPYFile_init_Ok fs path self :
  NPYFile.__init__ fs path = Ok self →
  ∃ data, fs !! path = Some data
    ∧ self = {| NPYFile.path := path; NPYFile.attrs := ∅; NPYFile._data := data;
                NPYFile.size := Numpy.len data;
                NPYFile.dtype := Numpy.nd_dtype data |}.
Proof.
  unfold NPYFile.__init__, Numpy.load. destruct (fs !! path) as [data|]; [|done].
  simpl. intros [= <-]. by exists data.
Qed.

Lemma NPYFile_init_constructed fs path self :
  NPYFile.__init__ fs path = Ok self → NPYFile.constructed self.
Proof. intros (data & _ & ->)%NPYFile_init_Ok. by split. Qed.

(** [read] hands back the object it was called on. *)
Lemma NPYFile_read_self columns start stop step self :
  (NPYFile.read columns start stop step self).2 = self.
Proof. done. Qed.


Lemma getitem_all a :
  Numpy.getitem a 0 (Numpy.len a) 1 = Ok a.
Proof.
  unfold Numpy.getitem, Numpy.len. rewrite getslice_all. simpl. by destruct a.
Qed.

Lemma NPYFile_full_rows columns self :
  NPYFile.constructed self →
  full_rows columns self = Numpy.nd_data (NPYFile._data self).
Proof.
  intros [Hsize _].
  change (full_rows columns self)
    with (match Numpy.getitem (NPYFile._data self) 0 (NPYFile.size self) 1 with
          | Ok a => Numpy.nd_data a
          | Err _ => []
          end).
  by rewrite Hsize, getitem_all.
Qed.

(** An [NPYFile] that [__init__] built meets the contract of an adapter. *)
Lemma NPYFile_contract self : NPYFile.constructed self → adapter_contract self.
Proof.
  intros Hc. split.
  - done.
  - intros columns. rewrite NPYFile_full_rows by done. symmetry. apply Hc.
  - intros columns start stop step _. rewrite NPYFile_full_rows by done.
    simpl. unfold Numpy.getitem.
    by destruct (Py.getslice _ _ _ _).
Qed.

(** ** Catalogs *)

Lemma mapM_result_Ok {B C} (g : B → result C) (xs : list B) (ys : list C) :
  mapM g xs = Ok ys ↔ Forall2 (λ x y, g x = Ok y) xs ys.
Proof.
  revert ys. induction xs as [|x xs IH]; intros ys; simpl.
  - split; [intros [= <-]; constructor|]. by inversion 1.
  - split.
    + destruct (g x) as [y|e] eqn:Hg; [|done]. simpl.
      destruct (mapM g xs) as [ys'|e] eqn:Hm; [|done]. simpl.
      intros [= <-]. constructor; [done|]. by apply IH.
    + inversion 1 as [|? y ? ys' Hg Hrest]; subst.
      rewrite Hg. simpl. apply IH in Hrest. rewrite Hrest. done.
Qed.

Lemma mapM_result_ext {B C} (g h : B → result C) (xs : list B) :
  Forall (λ x, g x = h x) xs → mapM g xs = mapM h xs.
Proof.
  induction 1 as [|x xs Hx _ IH]; [done|]. simpl. by rewrite Hx, IH.
Qed.

Lemma getslice_replicate {B} (v : B) (size start stop step : Z) :
  valid_range size start stop step = true →
  Py.getslice (replicate (Z.to_nat size) v) start stop step
  = Ok (replicate (Z.to_nat (Py.ceil_div (stop - start) step)) v).
Proof.
  intros (H0 & Hle & Hn & Hstep)%valid_range_true.
  destruct (getslice_valid (replicate (Z.to_nat size) v) start stop step)
    as (rows & -> & Hlen & Hrows); [lia..| |lia|].
  { unfold Py.len. rewrite length_replicate. lia. }
  f_equal.
  assert (0 ≤ Py.ceil_div (stop - start) step) as Hc.
  { rewrite <- Hlen. unfold Py.len. lia. }
  apply (list_eq_below _ _ (Py.ceil_div (stop - start) step)); [done| |].
  - unfold Py.len. rewrite length_replicate. lia.
  - intros i Hi. rewrite Hrows by done.
    pose proof (stride_below_stop start stop step (Z.of_nat i) Hstep ltac:(lia) Hi).
    rewrite !lookup_replicate_2; [done|lia..].
Qed.

Lemma default_value_cases column :
  CatalogSource.default_value column
  = if decide ("Selection" = column) then Some (Numpy.VBool true)
    else if decide ("Weight" = column) then Some (Numpy.VFloat 1)
    else if decide ("Value" = column) then Some (Numpy.VFloat 1)
    else None.
Proof.
  unfold CatalogSource.default_value, CatalogSource.defaults.
  cbn [list_find fst]. 
  destruct (decide ("Selection" = column)); [done|].
  destruct (decide ("Weight" = column)); [done|].
  destruct (decide ("Value" = column)); done.
Qed.

Lemma default_value_Some column v :
  CatalogSource.default_value column = Some v ↔
  (column = "Selection" ∧ v = Numpy.VBool true)
  ∨ (column = "Weight" ∧ v = Numpy.VFloat 1)
  ∨ (column = "Value" ∧ v = Numpy.VFloat 1).
Proof.
  rewrite default_value_cases.
  destruct (decide ("Selection" = column)) as [<-|].
  { split; [intros [= <-]; by left|]. by intros [[_ ->]|[[? _]|[? _]]]. }
  destruct (decide ("Weight" = column)) as [<-|].
  { split; [intros [= <-]; right; by left|]. by intros [[? _]|[[_ ->]|[? _]]]. }
  destruct (decide ("Value" = column)) as [<-|].
  { split; [intros [= <-]; right; by right|]. by intros [[? _]|[[? _]|[_ ->]]]. }
  split; [done|]. by intros [[-> _]|[[-> _]|[-> _]]].
Qed.

Lemma default_value_is_Some column :
  is_Some (CatalogSource.default_value column) ↔ column ∈ CatalogSource.defaults.*1.
Proof.
  change (CatalogSource.defaults.*1) with ["Selection"; "Weight"; "Value"].
  rewrite !elem_of_cons, elem_of_nil. unfold is_Some.
  setoid_rewrite default_value_Some. split.
  - intros (v & [[-> _]|[[-> _]|[-> _]]]); tauto.
  - intros [->|[->|[->|[]]]]; eexists; [left|right; left|right; right]; done.
Qed.

Lemma sorted_elem_of names name : name ∈ Glob.sorted names ↔ name ∈ names.
Proof. unfold Glob.sorted. by rewrite merge_sort_Permutation. Qed.

Lemma sorted_Sorted names : Sorted Glob.path_le (Glob.sorted names).
Proof. apply (Sorted_merge_sort Glob.path_le). Qed.

Lemma sorted_NoDup names : NoDup names → NoDup (Glob.sorted names).
Proof. unfold Glob.sorted. by rewrite merge_sort_Permutation. Qed.

Section CatalogFacts.
Context {A : Type} `{FileType A}.
Implicit Types (cat : CatalogSource.t A) (members : list A).

Lemma columns_elem_of cat column :
  column ∈ CatalogSource.columns cat
  ↔ column ∈ CatalogSource.hardcolumns cat ∨ column ∈ CatalogSource.defaults.*1.
Proof.
  unfold CatalogSource.columns.
  by rewrite sorted_elem_of, elem_of_remove_dups, elem_of_app.
Qed.


Lemma cat_eta cat :
  {| CatalogSource.name := CatalogSource.name cat;
     CatalogSource.source := CatalogSource.source cat |} = cat.
Proof. by destruct cat. Qed.

(** A field that the dtype names is found at one position, the same for
    every array of that dtype. *)
Lemma field_elem_of dt column :
  column ∈ Numpy.names dt →
  ∃ j : nat, ∀ rows,
    Numpy.field {| Numpy.nd_dtype := dt; Numpy.nd_data := rows |} column
    = Ok ((λ r : Numpy.row, default (Numpy.VFloat 0) (r !! j)) <$> rows).
Proof.
  intros Hin. unfold Numpy.field. simpl.
  destruct (list_find_elem_of (λ n, n = column) (Numpy.names dt) column Hin eq_refl)
    as [[j y] Hfind].
  exists j. intros rows. by rewrite Hfind.
Qed.

(** A column that no file backs does not look at what the stack returned. *)
Lemma read_column_default cat arr n column :
  column ∉ CatalogSource.hardcolumns cat →
  CatalogSource.read_column cat arr n column
  = match CatalogSource.default_value column with
    | Some v => Ok (column, replicate n v)
    | None => Err KeyError
    end.
Proof. intros Hnot. unfold CatalogSource.read_column. by rewrite decide_False. Qed.

Lemma read_column_hard cat arr n column :
  column ∈ CatalogSource.hardcolumns cat →
  CatalogSource.read_column cat arr n column
  = (buf ← Numpy.field arr column; Ok (column, buf)).
Proof. intros Hin. unfold CatalogSource.read_column. by rewrite decide_True. Qed.

(** A read of a valid range on a catalog over adapters that meet the
    contract: one slice of the global rows serves every backed column, and
    the catalog is left as it is. *)
Lemma catalog_read_spec nm members columns start stop step :
  let cat := {| CatalogSource.name := nm;
                CatalogSource.source := FileStack.make members |} in
  let n := Py.ceil_div (stop - start) step in
  let backed := filter (λ c, c ∈ CatalogSource.hardcolumns cat) columns in
  Forall adapter_contract members →
  valid_range (CatalogSource.size cat) start stop step = true →
  ∃ rows,
    Py.getslice (global_rows backed members) start stop step = Ok rows
    ∧ Py.len rows = n
    ∧ CatalogSource.read columns start stop step cat
      = (mapM (CatalogSource.read_column cat
                 {| Numpy.nd_dtype := FileStack.dtype (FileStack.make members);
                    Numpy.nd_data := rows |} (Z.to_nat n)) columns,
         cat).
Proof.
  intros cat n backed Hc Hvalid.
  pose proof Hvalid as (H0 & Hle & Hn & Hstep)%valid_range_true.
  change (CatalogSource.size cat) with (FileStack.size (FileStack.make members)) in Hn.
  rewrite make_size in Hn.
  destruct (getslice_valid (global_rows backed members) start stop step)
    as (rows & Hrows & Hlen & _); [lia..| |lia|].
  { rewrite global_rows_len by done. lia. }
  exists rows. split; [done|]. split; [done|].
  unfold CatalogSource.read. rewrite Hvalid. fold n. fold backed.
  destruct backed as [|b backed'] eqn:Hb.
  - cbn [mbind result_bind]. f_equal.
    apply mapM_result_ext, Forall_forall. intros c Hin.
    assert (c ∉ CatalogSource.hardcolumns cat) as Hnot.
    { intros Hhard. assert (c ∈ backed) as Hcb by (by apply list_elem_of_filter).
      rewrite Hb in Hcb. by apply elem_of_nil in Hcb. }
    by rewrite !read_column_default.
  - change (CatalogSource.source cat) with (FileStack.make members).
    rewrite read_spec by done. rewrite Hrows. done.
Qed.


Lemma catalog_read_state cat columns start stop step :
  Forall (λ f, ∀ cs a b c, (ft_read cs a b c f).2 = f)
    (FileStack.files (CatalogSource.source cat)) →
  (CatalogSource.read columns start stop step cat).2 = cat.
Proof.
  intros Hro. unfold CatalogSource.read.
  destruct (valid_range _ _ _ _); [|done].
  destruct (filter _ columns) as [|b backed]; [apply cat_eta|].
  pose proof (read_state (b :: backed) start stop step (CatalogSource.source cat) Hro)
    as Hst.
  destruct (FileStack.read _ _ _ _ _) as [r stack']. simpl in *. subst.
  apply cat_eta.
Qed.

End CatalogFacts.

(** ** Path resolution *)

Lemma glob_elem_of fs pattern name :
  name ∈ Glob.glob fs pattern ↔ is_Some (fs !! name) ∧ Glob.matches pattern name = true.
Proof.
  unfold Glob.glob. rewrite list_elem_of_filter, list_elem_of_fmap.
  split.
  - intros [Hm ([n a] & -> & Hin)]. apply elem_of_map_to_list in Hin. by eauto.
  - intros [[a Ha] Hm]. split; [done|]. exists (name, a). split; [done|].
    by apply elem_of_map_to_list.
Qed.

Lemma glob_NoDup fs pattern : NoDup (Glob.glob fs pattern).
Proof. apply NoDup_filter, NoDup_fst_map_to_list. Qed.

(** A pattern resolves to the matching names in lexicographic order. *)
Lemma resolve_pattern fs pattern :
  Glob.has_wildcard pattern = true →
  Glob.resolve fs (Glob.PathStr pattern) = Glob.sorted (Glob.glob fs pattern)
  ∧ Sorted Glob.path_le (Glob.resolve fs (Glob.PathStr pattern))
  ∧ NoDup (Glob.resolve fs (Glob.PathStr pattern))
  ∧ ∀ name, name ∈ Glob.resolve fs (Glob.PathStr pattern)
      ↔ is_Some (fs !! name) ∧ Glob.matches pattern name = true.
Proof.
  intros Hw. unfold Glob.resolve. rewrite Hw.
  split; [done|]. split; [apply sorted_Sorted|].
  split; [apply sorted_NoDup, glob_NoDup|].
  intros name. by rewrite sorted_elem_of, glob_elem_of.
Qed.

(** ** Construction of a stack *)

Lemma release_acquire p handles :
  FileStack.release p (FileStack.acquire p handles) = handles.
Proof. unfold FileStack.acquire. simpl. by rewrite decide_True. Qed.

Lemma release_all paths handles :
  foldr FileStack.release (rev paths ++ handles) paths = handles.
Proof.
  revert handles. induction paths as [|p paths IH]; intros handles; [done|].
  simpl. rewrite <- app_assoc. simpl.
  rewrite (IH (p :: handles)). apply release_acquire.
Qed.

Section ConstructionFacts.
Context {A : Type} `{FileType A}.
Implicit Types (members : list A) (paths handles : list string).

(** Opening the members either opens every path, in order, and holds one
    handle for each, or fails with the error of a member and holds no
    handle more than before. *)
Lemma open_all_spec fs paths handles :
  match FileStack.open_all fs paths handles with
  | (Ok members, handles') =>
      Forall2 (λ p f, ft_open fs p = Ok f) paths members
      ∧ handles' = rev paths ++ handles
  | (Err e, handles') =>
      handles' = handles ∧ ∃ p, p ∈ paths ∧ ft_open fs p = Err e
  end.
Proof.
  revert handles. induction paths as [|p paths IH]; intros handles; simpl.
  { split; [constructor|done]. }
  destruct (ft_open fs p) as [f|e] eqn:Hp.
  2:{ split; [done|]. exists p. split; [left|done]. }
  specialize (IH (FileStack.acquire p handles)).
  destruct (FileStack.open_all fs paths (FileStack.acquire p handles))
    as [[members|e] handles'].
  - destruct IH as [Hall ->]. split; [by constructor|].
    unfold FileStack.acquire. by rewrite <- app_assoc.
  - destruct IH as [-> (q & Hq & He)]. split; [apply release_acquire|].
    exists q. split; [by right|done].
Qed.

Lemma open_all_Ok fs paths handles members :
  Forall2 (λ p f, ft_open fs p = Ok f) paths members →
  FileStack.open_all fs paths handles = (Ok members, rev paths ++ handles).
Proof.
  intros Hall. revert handles.
  induction Hall as [|p f paths members Hp _ IH]; intros handles; [done|].
  simpl. rewrite Hp, IH. unfold FileStack.acquire. by rewrite <- app_assoc.
Qed.

Lemma schema_equal_true members :
  FileStack.schema_equal members = true
  ↔ ∀ f g, f ∈ members → g ∈ members → ft_dtype f = ft_dtype g.
Proof.
  destruct members as [|f0 members]; simpl.
  { split; [|done]. intros _ f g Hf. by apply elem_of_nil in Hf. }
  rewrite forallb_forall. split.
  - intros Hall.
    assert (∀ g, g ∈ f0 :: members → ft_dtype g = ft_dtype f0) as Hsame.
    { intros g [->|Hg]%elem_of_cons; [done|].
      apply list_elem_of_In, Hall in Hg. by apply bool_decide_eq_true in Hg. }
    intros f g Hf Hg. by rewrite (Hsame f Hf), (Hsame g Hg).
  - intros Hall g Hg%list_elem_of_In. apply bool_decide_eq_true.
    apply Hall; [by right|by left].
Qed.

Lemma schema_equal_false members :
  (∃ f g, f ∈ members ∧ g ∈ members ∧ ft_dtype f ≠ ft_dtype g) →
  FileStack.schema_equal members = false.
Proof.
  intros (f & g & Hf & Hg & Hne).
  destruct (FileStack.schema_equal members) eqn:Heq; [|done].
  destruct Hne. by apply (proj1 (schema_equal_true members) Heq).
Qed.

(** What the constructor does, by outcome. *)
Lemma init_spec fs path handles :
  let paths := Glob.resolve fs path in
  match FileStack.__init__ fs path handles with
  | (Ok self, handles') =>
      paths ≠ []
      ∧ Forall2 (λ p f, ft_open fs p = Ok f) paths (FileStack.files self)
      ∧ FileStack.schema_equal (FileStack.files self) = true
      ∧ self = FileStack.make (FileStack.files self)
      ∧ handles' = rev paths ++ handles
  | (Err e, handles') =>
      handles' = handles
      ∧ ((e = ConfigurationError ∧ paths = [])
         ∨ (paths ≠ [] ∧ ∃ p, p ∈ paths ∧ ft_open fs p = Err e)
         ∨ (e = SchemaError ∧ ∃ members,
              Forall2 (λ p f, ft_open fs p = Ok f) paths members
              ∧ FileStack.schema_equal members = false))
  end.
Proof.
  intros paths. unfold FileStack.__init__. fold paths.
  destruct paths as [|p paths'] eqn:Hpaths; [by split; [|left]|].
  pose proof (open_all_spec fs (p :: paths') handles) as Hopen.
  destruct (FileStack.open_all fs (p :: paths') handles) as [[members|e] handles'].
  - destruct Hopen as [Hall ->].
    destruct (FileStack.schema_equal members) eqn:Hschema.
    + by repeat split.
    + split; [apply release_all|]. right. right. split; [done|]. by exists members.
  - destruct Hopen as [-> Hfail]. split; [done|]. right. left. by split.
Qed.

End ConstructionFacts.

(** ** Slices with bounds out of range *)

Section ClampFacts.
Context {B : Type}.
Implicit Types (l : list B).

Lemma adjust_bounds n i : 0 ≤ n → 0 ≤ Py.adjust n 0 n i ∧ Py.adjust n 0 n i ≤ n.
Proof. intros Hn. unfold Py.adjust. destruct (Z.ltb_spec i 0); lia. Qed.

Lemma adjust_nonneg n i : 0 ≤ n → 0 ≤ i → Py.adjust n 0 n i = Z.min i n.
Proof. intros Hn Hi. unfold Py.adjust. destruct (Z.ltb_spec i 0); lia. Qed.

(** With a positive step, a slice with any bounds is the valid slice
    between the adjusted bounds. *)
Lemma getslice_adjusted l start stop step :
  1 ≤ step →
  let s := Py.adjust (Py.len l) 0 (Py.len l) start in
  let e := Py.adjust (Py.len l) 0 (Py.len l) stop in
  Py.getslice l start stop step = Py.getslice l s (Z.max s e) step.
Proof.
  intros Hstep s e.
  assert (0 ≤ Py.len l) as Hlen by (unfold Py.len; lia).
  destruct (adjust_bounds (Py.len l) start Hlen) as [Hs1 Hs2].
  destruct (adjust_bounds (Py.len l) stop Hlen) as [He1 He2].
  fold s in Hs1, Hs2. fold e in He1, He2.
  unfold Py.getslice. destruct (Z.eqb_spec step 0); [lia|].
  rewrite (slice_indices_valid (Py.len l) s (Z.max s e) step) by lia.
  assert (Py.slice_indices (Py.len l) start stop step = (s, e)) as ->.
  { unfold Py.slice_indices. by destruct (Z.ltb_spec step 0); [lia|]. }
  assert (Py.slice_length s e step = Py.slice_length s (Z.max s e) step) as ->; [|done].
  unfold Py.slice_length. destruct (Z.ltb_spec step 0); [lia|].
  destruct (Z.ltb_spec s e), (Z.ltb_spec s (Z.max s e)); try lia.
  by rewrite Z.max_r by lia.
Qed.

(** A positive step never fails: the slice has as many items as fit
    between the adjusted bounds. *)
Lemma getslice_clamped l start stop step :
  1 ≤ step →
  let s := Py.adjust (Py.len l) 0 (Py.len l) start in
  let e := Py.adjust (Py.len l) 0 (Py.len l) stop in
  ∃ rows, Py.getslice l start stop step = Ok rows
    ∧ Py.len rows = Z.max 0 (Py.ceil_div (e - s) step)
    ∧ ∀ i : nat, Z.of_nat i < Py.len rows →
        rows !! i = l !! Z.to_nat (s + Z.of_nat i * step).
Proof.
  intros Hstep s e. rewrite getslice_adjusted by done. fold s e.
  assert (0 ≤ Py.len l) as Hlen by (unfold Py.len; lia).
  destruct (adjust_bounds (Py.len l) start Hlen) as [Hs1 Hs2].
  destruct (adjust_bounds (Py.len l) stop Hlen) as [He1 He2].
  fold s in Hs1, Hs2. fold e in He1, He2.
  destruct (getslice_valid l s (Z.max s e) step) as (rows & -> & Hn & Hrows); [lia..|].
  exists rows. split; [done|].
  assert (Py.ceil_div (Z.max s e - s) step = Z.max 0 (Py.ceil_div (e - s) step)) as Hc.
  { rewrite <- !slice_length_max by done.
    rewrite <- slice_length_ceil by lia.
    unfold Py.slice_length. destruct (Z.ltb_spec step 0); [lia|].
    destruct (Z.ltb_spec s e), (Z.ltb_spec s (Z.max s e)); try lia.
    by rewrite Z.max_r by lia. }
  rewrite Hc in *. split; [done|]. intros i Hi. apply Hrows. lia.
Qed.

Lemma ceil_div_mono a b step : 1 ≤ step → a ≤ b → Py.ceil_div a step ≤ Py.ceil_div b step.
Proof.
  intros Hstep Hab. unfold Py.ceil_div.
  assert (- b / step ≤ - a / step); [|lia].
  apply Z.div_le_mono; lia.
Qed.

(** Every item of a slice is an item of the list. *)
Lemma getslice_elem_of l start stop step rows x :
  Py.getslice l start stop step = Ok rows → x ∈ rows → x ∈ l.
Proof.
  unfold Py.getslice. destruct (step =? 0); [done|].
  destruct (Py.slice_indices _ _ _ _) as [s e]. intros [= <-].
  rewrite list_elem_of_omap. intros (k & _ & Hk). by eapply list_elem_of_lookup_2.
Qed.

End ClampFacts.

(** The global indices a step picks out of [start, stop). *)
Lemma picked_indices start stop step (i : Z) :
  1 ≤ step →
  i ∈ (λ j, start + j * step) <$> seqZ 0 (Py.ceil_div (stop - start) step)
  ↔ start ≤ i ∧ i < stop ∧ (i - start) `mod` step = 0.
Proof.
  intros Hstep. rewrite list_elem_of_fmap. split.
  - intros (j & -> & Hj). apply elem_of_seqZ in Hj.
    pose proof (stride_below_stop start stop step j Hstep ltac:(lia) ltac:(lia)).
    split; [nia|]. split; [done|].
    replace (start + j * step - start) with (j * step) by lia.
    apply Z_mod_mult.
  - intros (Hlo & Hhi & Hmod). exists ((i - start) / step). split.
    + pose proof (Z.div_mod (i - start) step ltac:(lia)). lia.
    + apply elem_of_seqZ.
      assert (0 ≤ (i - start) / step) by (apply Z.div_pos; lia).
      rewrite ceil_div_pos by lia.
      assert ((i - start) / step ≤ (stop - start - 1) / step)
        by (apply Z.div_le_mono; lia).
      lia.
Qed.

Lemma mapM_result_Forall3 {B C} (g h : B → result C) (R : B → C → C → Prop)
    (xs : list B) :
  Forall (λ x, ∃ y z, g x = Ok y ∧ h x = Ok z ∧ R x y z) xs →
  ∃ ys zs, mapM g xs = Ok ys ∧ mapM h xs = Ok zs ∧ Forall3 R xs ys zs.
Proof.
  induction 1 as [|x xs (y & z & Hg & Hh & HR) _ (ys & zs & Hgs & Hhs & HRs)].
  - exists [], []. repeat split; constructor.
  - exists (y :: ys), (z :: zs). simpl. rewrite Hg, Hh, Hgs, Hhs.
    repeat split; by constructor.
Qed.

Lemma ceil_div_1 a : Py.ceil_div a 1 = a.
Proof. unfold Py.ceil_div. rewrite Z.div_1_r. lia. Qed.

Section CatalogColumns.
Context {A : Type} `{FileType A}.

(** Every requested column of a catalog, for a valid range: as many rows
    as the range selects, equal to the slice of the column as read over
    the whole catalog; the catalog is left as it is. *)
Lemma catalog_columns_spec nm (members : list A) columns start stop step :
  let cat := {| CatalogSource.name := nm;
                CatalogSource.source := FileStack.make members |} in
  Forall adapter_contract members →
  valid_range (CatalogSource.size cat) start stop step = true →
  Forall (λ c, c ∈ CatalogSource.columns cat) columns →
  ∃ full bufs,
    CatalogSource.read columns 0 (CatalogSource.size cat) 1 cat = (Ok full, cat)
    ∧ CatalogSource.read columns start stop step cat = (Ok bufs, cat)
    ∧ Forall3 (λ c fb b,
        fb.1 = c ∧ b.1 = c
        ∧ Py.len b.2 = Py.ceil_div (stop - start) step
        ∧ Py.getslice fb.2 start stop step = Ok b.2) columns full bufs.
Proof.
  intros cat Hc Hvalid Hcols.
  pose proof Hvalid as (H0 & Hle & Hn & Hstep)%valid_range_true.
  assert (valid_range (CatalogSource.size cat) 0 (CatalogSource.size cat) 1 = true)
    as Hwhole by (apply valid_range_true; lia).
  destruct (catalog_read_spec nm members columns start stop step Hc Hvalid)
    as (rows & Hrows & Hlen & Hread).
  destruct (catalog_read_spec nm members columns 0 (CatalogSource.size cat) 1 Hc Hwhole)
    as (whole & Hall & _ & Hreadall).
  fold cat in Hread, Hreadall, Hrows, Hall. rewrite Hread, Hreadall.
  clear Hread Hreadall.
  set (backed := filter (λ c, c ∈ CatalogSource.hardcolumns cat) columns) in *.
  assert (whole = global_rows backed members) as ->.
  { change (CatalogSource.size cat) with (FileStack.size (FileStack.make members)) in Hall.
    rewrite make_size, <- (global_rows_len backed members Hc), getslice_all in Hall.
    by injection Hall. }
  set (n := Py.ceil_div (stop - start) step) in *.
  rewrite Z.sub_0_r, ceil_div_1.
  match goal with
  | |- ∃ full bufs, (mapM ?g _, _) = _ ∧ (mapM ?h _, _) = _ ∧ Forall3 ?R _ _ _ =>
      destruct (mapM_result_Forall3 g h R columns) as (full & bufs & -> & -> & HR)
  end; [|by exists full, bufs].
  eapply Forall_impl; [exact Hcols|]. intros c Hin. cbv beta.
  destruct (decide (c ∈ CatalogSource.hardcolumns cat)) as [Hhard|Hsoft].
  - rewrite !read_column_hard by done.
    destruct (field_elem_of (FileStack.dtype (FileStack.make members)) c Hhard)
      as [j Hfield].
    rewrite !Hfield. cbn [mbind result_bind].
    eexists _, _. split; [done|]. split; [done|]. cbn [fst snd].
    split; [done|]. split; [done|]. split.
    + unfold Py.len in *. by rewrite length_fmap.
    + by rewrite getslice_fmap, Hrows.
  - rewrite !read_column_default by done.
    apply columns_elem_of in Hin as [Hhard|Hdef]; [done|].
    apply default_value_is_Some in Hdef as [v Hv]. rewrite Hv.
    eexists _, _. split; [done|]. split; [done|]. cbn [fst snd].
    split; [done|]. split; [done|]. split.
    + unfold Py.len in *. rewrite length_replicate. lia.
    + by apply getslice_replicate.
Qed.

End CatalogColumns.

(** * Properties of the specification *)

(** ** The [NPYFile] adapter of the notebook *)

(** C9: [NPYFile.read] returns the same buffer whatever [columns] is: the
    argument is ignored, and the outcome is the slice of the full
    structured array, with the dtype of the file (every column), each
    returned record being a whole record of the file. *)
Theorem npyfile_read_ignores_columns
    (self : NPYFile.t) (columns columns' : list string) (start stop step : Z) :
  NPYFile.read columns start stop step self = NPYFile.read columns' start stop step self
  ∧ (NPYFile.read columns start stop step self).1
    = Numpy.getitem (NPYFile._data self) start stop step
  ∧ ∀ arr, (NPYFile.read columns start stop step self).1 = Ok arr →
      Numpy.nd_dtype arr = Numpy.nd_dtype (NPYFile._data self)
      ∧ ∀ r, r ∈ Numpy.nd_data arr → r ∈ Numpy.nd_data (NPYFile._data self).
Proof.
  split; [done|]. split; [done|].
  intros arr. unfold NPYFile.read, Numpy.getitem. cbn [fst].
  destruct (Py.getslice _ _ _ _) as [rows|e] eqn:Hrows; [|done].
  intros [= <-]. split; [done|]. intros r Hr.
  by eapply getslice_elem_of.
Qed.

Lemma npyfile_read_ignores_columns_witness :
  ∃ self, NPYFile.__init__ Sample.disk2 "other.npy" = Ok self
    ∧ NPYFile.read ["Mass"] 0 2 1 self = NPYFile.read ["Position"; "Mass"] 0 2 1 self
    ∧ ∃ arr, (NPYFile.read ["Mass"] 0 2 1 self).1 = Ok arr
        ∧ Numpy.nd_dtype arr = Sample.position_mass.
Proof.
  eexists. split; [vm_compute; reflexivity|].
  match goal with
  | |- NPYFile.read _ _ _ _ ?f = _ ∧ _ =>
      destruct (npyfile_read_ignores_columns f ["Mass"] ["Position"; "Mass"] 0 2 1)
        as (Hsame & _ & Hdtype)
  end.
  split; [exact Hsame|].
  eexists. split; [vm_compute; reflexivity|].
  apply Hdtype. vm_compute. reflexivity.
Defined.

(** C10, as amended: for every integer [start] and [stop] and every
    [step >= 1], [NPYFile.read] raises nothing and changes nothing.  A
    negative bound counts from the end, and both bounds are then clamped
    to [0, size]; the rows returned are those between the adjusted bounds,
    [max(0, ceil((e - s) / step))] of them.  With non-negative bounds this
    is at most [max(0, ceil((stop - start) / step))] rows, possibly fewer,
    possibly none, and possibly exactly that many. *)
Theorem npyfile_read_never_raises
    (self : NPYFile.t) (columns : list string) (start stop step : Z) :
  1 ≤ step →
  let size := Numpy.len (NPYFile._data self) in
  let s := Py.adjust size 0 size start in
  let e := Py.adjust size 0 size stop in
  ∃ arr, NPYFile.read columns start stop step self = (Ok arr, self)
    ∧ Numpy.len arr = Z.max 0 (Py.ceil_div (e - s) step)
    ∧ (∀ i : nat, Z.of_nat i < Numpy.len arr →
         Numpy.nd_data arr !! i
         = Numpy.nd_data (NPYFile._data self) !! Z.to_nat (s + Z.of_nat i * step))
    ∧ (0 ≤ start → 0 ≤ stop →
         s = Z.min start size ∧ e = Z.min stop size
         ∧ Numpy.len arr ≤ Z.max 0 (Py.ceil_div (stop - start) step))
    ∧ (0 ≤ stop → stop ≤ start → Numpy.len arr = 0).
Proof.
  intros Hstep size s e.
  destruct (getslice_clamped (Numpy.nd_data (NPYFile._data self)) start stop step Hstep)
    as (rows & Hrows & Hlen & Hlookup).
  fold (Numpy.len (NPYFile._data self)) in Hlen, Hlookup. fold size s e in Hlen, Hlookup.
  exists {| Numpy.nd_dtype := Numpy.nd_dtype (NPYFile._data self); Numpy.nd_data := rows |}.
  assert (0 ≤ size) as Hsize by (unfold size, Numpy.len, Py.len; lia).
  split; [|split; [|split; [|split]]].
  - unfold NPYFile.read, Numpy.getitem. by rewrite Hrows.
  - exact Hlen.
  - exact Hlookup.
  - intros Hs He. unfold s, e. rewrite !adjust_nonneg by done.
    split; [done|]. split; [done|].
    change (Numpy.len _) with (Py.len rows). rewrite Hlen.
    unfold s, e. rewrite !adjust_nonneg by done.
    destruct (Z.le_gt_cases start size).
    + pose proof (ceil_div_mono (Z.min stop size - Z.min start size) (stop - start)
                    step Hstep ltac:(lia)). lia.
    + pose proof (ceil_div_nonpos (Z.min stop size - Z.min start size) step
                    ltac:(lia) Hstep). lia.
  - intros Hs He. change (Numpy.len _) with (Py.len rows). rewrite Hlen.
    assert (e - s ≤ 0) by (unfold s, e; rewrite !adjust_nonneg by lia; lia).
    pose proof (ceil_div_nonpos (e - s) step ltac:(lia) Hstep). lia.
Qed.

Lemma npyfile_read_never_raises_witness :
  ∃ self arr, NPYFile.__init__ Sample.disk2 "other.npy" = Ok self
    ∧ NPYFile.read ["Mass"] (-1) 9 2 self = (Ok arr, self)
    ∧ Numpy.len arr = 1.
Proof.
  eexists. 
  match goal with
  | |- ∃ arr, NPYFile.__init__ _ _ = Ok ?f ∧ _ =>
      destruct (npyfile_read_never_raises f ["Mass"] (-1) 9 2 ltac:(lia))
        as (arr & Hread & Hlen & _)
  end.
  exists arr. split; [vm_compute; reflexivity|]. split; [exact Hread|].
  rewrite Hlen. vm_compute. reflexivity.
Defined.

(** C10 as it was stated fails: on a file of 3 rows the request
    [read(_, 0, 4, 2)] has [stop > size], yet it returns 2 rows, which is
    [ceil((4 - 0) / 2)] and not fewer. *)
Lemma npyfile_read_out_of_bounds_full_count :
  ∃ self arr, NPYFile.__init__ Sample.disk2 "other.npy" = Ok self
    ∧ NPYFile.size self = 3
    ∧ valid_range (NPYFile.size self) 0 4 2 = false
    ∧ NPYFile.read ["Mass"] 0 4 2 self = (Ok arr, self)
    ∧ Numpy.len arr = 2
    ∧ ¬ (Numpy.len arr < Py.ceil_div (4 - 0) 2).
Proof.
  eexists _, _. split; [vm_compute; reflexivity|].
  split; [reflexivity|]. split; [reflexivity|].
  split; [vm_compute; reflexivity|]. split; [reflexivity|].
  vm_compute. discriminate.
Qed.

(** A field of a slice of an array is the slice of the field. *)
Lemma field_getitem a start stop step arr column :
  Numpy.getitem a start stop step = Ok arr →
  column ∈ Numpy.names (Numpy.nd_dtype a) →
  ∃ whole part,
    Numpy.field a column = Ok whole
    ∧ Numpy.field arr column = Ok part
    ∧ Py.getslice whole start stop step = Ok part
    ∧ Py.len part = Numpy.len arr.
Proof.
  destruct a as [dt rows]. unfold Numpy.getitem. simpl.
  destruct (Py.getslice rows start stop step) as [picked|e] eqn:Hpicked; [|done].
  intros [= <-] Hin. destruct (field_elem_of dt column Hin) as [j Hj].
  eexists _, _. split; [apply Hj|]. split; [apply Hj|]. split.
  - by rewrite getslice_fmap, Hpicked.
  - unfold Numpy.len, Py.len. simpl. by rewrite length_fmap.
Qed.

Section CatalogErrors.
Context {A : Type} `{FileType A}.
Implicit Types (cat : CatalogSource.t A) (members : list A).




End CatalogErrors.




(** C1: for valid arguments [0 <= start <= stop <= size], [step >= 1] and
    requested columns of the schema, [read] returns exactly
    [ceil((stop - start) / step)] rows per requested column, equal to the
    in-memory slice [start:stop:step] of what reading rows [0, size)
    returns: for an [NPYFile] built by [__init__], for a stack of adapters
    that meet the contract, and for a catalog over such a stack. *)
Theorem read_is_slice_of_full_read :
  (∀ (self : NPYFile.t) columns start stop step,
     NPYFile.constructed self →
     valid_range (NPYFile.size self) start stop step = true →
     Forall (λ c, c ∈ Numpy.names (NPYFile.dtype self)) columns →
     ∃ full arr,
       NPYFile.read columns 0 (NPYFile.size self) 1 self = (Ok full, self)
       ∧ NPYFile.read columns start stop step self = (Ok arr, self)
       ∧ Numpy.getitem full start stop step = Ok arr
       ∧ Numpy.len arr = Py.ceil_div (stop - start) step
       ∧ Forall (λ c, ∃ whole part,
           Numpy.field full c = Ok whole
           ∧ Numpy.field arr c = Ok part
           ∧ Py.getslice whole start stop step = Ok part
           ∧ Py.len part = Py.ceil_div (stop - start) step) columns)
  ∧ (∀ (A : Type) (FT : FileType A) (members : list A) columns start stop step,
       let self := FileStack.make members in
       Forall adapter_contract members →
       valid_range (FileStack.size self) start stop step = true →
       ∃ full arr,
         FileStack.read columns 0 (FileStack.size self) 1 self = (Ok full, self)
         ∧ FileStack.read columns start stop step self = (Ok arr, self)
         ∧ Numpy.getitem full start stop step = Ok arr
         ∧ Numpy.len arr = Py.ceil_div (stop - start) step)
  ∧ (∀ (A : Type) (FT : FileType A) nm (members : list A) columns start stop step,
       let cat := {| CatalogSource.name := nm;
                     CatalogSource.source := FileStack.make members |} in
       Forall adapter_contract members →
       valid_range (CatalogSource.size cat) start stop step = true →
       Forall (λ c, c ∈ CatalogSource.columns cat) columns →
       ∃ full bufs,
         CatalogSource.read columns 0 (CatalogSource.size cat) 1 cat = (Ok full, cat)
         ∧ CatalogSource.read columns start stop step cat = (Ok bufs, cat)
         ∧ Forall3 (λ c whole part,
             whole.1 = c ∧ part.1 = c
             ∧ Py.len part.2 = Py.ceil_div (stop - start) step
             ∧ Py.getslice whole.2 start stop step = Ok part.2) columns full bufs).
Proof.
  split; [|split].
  - intros self columns start stop step [Hsize Hdtype] Hv Hcols.
    pose proof Hv as (H0 & Hle & Hn & Hstep)%valid_range_true.
    unfold NPYFile.read. rewrite Hsize, getitem_all.
    rewrite Hsize in Hn. unfold Numpy.len in Hn.
    destruct (getslice_valid (Numpy.nd_data (NPYFile._data self)) start stop step)
      as (rows & Hrows & Hlen & _); [lia..|].
    assert (Numpy.getitem (NPYFile._data self) start stop step
            = Ok {| Numpy.nd_dtype := Numpy.nd_dtype (NPYFile._data self);
                    Numpy.nd_data := rows |}) as Harr.
    { unfold Numpy.getitem. by rewrite Hrows. }
    eexists _, _. split; [done|]. split; [by rewrite Harr|].
    split; [exact Harr|]. split; [exact Hlen|].
    eapply Forall_impl; [exact Hcols|]. intros c Hc. cbv beta.
    rewrite Hdtype in Hc.
    destruct (field_getitem _ _ _ _ _ c Harr Hc) as (whole & part & ? & ? & ? & Hl).
    exists whole, part. repeat (split; [done|]). by rewrite Hl.
  - intros A FT members columns start stop step self Hc Hv.
    pose proof Hv as (H0 & Hle & Hn & Hstep)%valid_range_true.
    unfold self in *. rewrite read_full, read_spec by done.
    rewrite make_size in Hn.
    destruct (getslice_valid (global_rows columns members) start stop step)
      as (rows & Hrows & Hlen & _); [lia..| |lia|].
    { rewrite global_rows_len by done. lia. }
    rewrite Hrows. eexists _, _. split; [done|]. split; [done|].
    split; [|exact Hlen].
    unfold Numpy.getitem. cbn [Numpy.nd_data Numpy.nd_dtype]. by rewrite Hrows.
  - intros A FT nm members columns start stop step cat Hc Hv Hcols.
    exact (catalog_columns_spec nm members columns start stop step Hc Hv Hcols).
Qed.

Lemma read_is_slice_of_full_read_witness :
  ∃ self, NPYFile.__init__ Sample.disk2 "example-1.npy" = Ok self
    ∧ ∃ full arr,
        NPYFile.read ["Mass"] 0 (NPYFile.size self) 1 self = (Ok full, self)
        ∧ NPYFile.read ["Mass"] 3 10 3 self = (Ok arr, self)
        ∧ Numpy.getitem full 3 10 3 = Ok arr
        ∧ Numpy.len arr = 3.
Proof.
  eexists. split; [vm_compute; reflexivity|].
  destruct read_is_slice_of_full_read as (Hnpy & _).
  match goal with
  | |- ∃ full arr, _ ∧ NPYFile.read _ _ _ _ ?f = _ ∧ _ =>
      destruct (Hnpy f ["Mass"] 3 10 3) as (full & arr & Hfull & Harr & Hslice & Hlen & _)
  end.
  - split; reflexivity.
  - vm_compute. reflexivity.
  - repeat constructor.
  - exists full, arr. split; [exact Hfull|]. split; [exact Harr|].
    split; [exact Hslice|]. rewrite Hlen. vm_compute. reflexivity.
Defined.

(** ** Stacks *)

(** A stack that the constructor returned is [make] of its members. *)
Lemma init_make {A : Type} `{FileType A} fs path handles (self : FileStack.t A) handles' :
  FileStack.__init__ fs path handles = (Ok self, handles') →
  self = FileStack.make (FileStack.files self).
Proof.
  intros Hinit. pose proof (init_spec fs path handles) as Hspec.
  cbv zeta in Hspec. rewrite Hinit in Hspec.
  by destruct Hspec as (_ & _ & _ & ? & _).
Qed.

(** C2: the global size of a stack is the sum of the sizes of its members,
    and for every global index [i] in [0, size) the offset table maps [i]
    to a member and a local index such that reading 1 row at [i] from the
    stack gives the rows that reading 1 row at the local index from that
    member gives. *)
Theorem stack_size_and_global_index {A : Type} `{FileType A}
    fs path handles (self : FileStack.t A) handles' columns :
  FileStack.__init__ fs path handles = (Ok self, handles') →
  Forall (λ f, 0 ≤ ft_size f) (FileStack.files self) →
  FileStack.size self = FileStack.total (ft_size <$> FileStack.files self)
  ∧ FileStack.offsets self = FileStack.cumulative 0 (ft_size <$> FileStack.files self)
  ∧ ∀ i : Z, 0 ≤ i → i < FileStack.size self →
      ∃ (k : nat) (l : Z) f,
        FileStack.locate self i = Ok (k, l)
        ∧ FileStack.files self !! k = Some f
        ∧ FileStack.offsets self !! k = Some (i - l)
        ∧ 0 ≤ l ∧ l < ft_size f
        ∧ Numpy.nd_data <$> (FileStack.read columns i (i + 1) 1 self).1
          = Numpy.nd_data <$> (ft_read columns l (l + 1) 1 f).1.
Proof.
  intros Hinit Hpos. apply init_make in Hinit.
  set (members := FileStack.files self) in *. rewrite Hinit.
  split; [apply make_size|]. split; [done|].
  intros i H0 Hlt. by apply read_one_row.
Qed.

Lemma stack_size_and_global_index_witness :
  ∃ self handles',
    FileStack.__init__ (A := NPYFile.t) Sample.disk2 (Glob.PathStr "example-*") []
    = (Ok self, handles')
    ∧ FileStack.size self = 100
    ∧ ∃ f, FileStack.locate self 45 = Ok (1%nat, 5)
        ∧ FileStack.files self !! 1%nat = Some f
        ∧ Numpy.nd_data <$> (FileStack.read ["Mass"] 45 46 1 self).1
          = Numpy.nd_data <$> (NPYFile.read ["Mass"] 5 6 1 f).1.
Proof.
  eexists _, _. split; [vm_compute; reflexivity|].
  match goal with
  | |- FileStack.size ?s = _ ∧ _ =>
      destruct (stack_size_and_global_index Sample.disk2 (Glob.PathStr "example-*") []
                  s ["example-2.npy"; "example-1.npy"] ["Mass"])
        as (Hsize & _ & Hrow)
  end.
  - vm_compute. reflexivity.
  - repeat constructor; vm_compute; discriminate.
  - split; [rewrite Hsize; vm_compute; reflexivity|].
    destruct (Hrow 45) as (k & l & f & Hloc & Hf & _ & _ & _ & Hread);
      [lia|vm_compute; reflexivity|].
    vm_compute in Hloc. injection Hloc as <- <-.
    exists f. split; [vm_compute; reflexivity|]. split; [exact Hf|exact Hread].
Defined.

(** C7: a read of a stack with a step applies the step over the global
    index space: the rows returned are, in order, the global rows at
    [start], [start + step], [start + 2*step], ... below [stop], so a global
    index of the range is read if and only if it is congruent to [start]
    modulo [step], wherever the boundaries between members fall. *)
Theorem stack_step_over_global_indices {A : Type} `{FileType A}
    fs path handles (self : FileStack.t A) handles' columns start stop step :
  FileStack.__init__ fs path handles = (Ok self, handles') →
  Forall adapter_contract (FileStack.files self) →
  valid_range (FileStack.size self) start stop step = true →
  let picked := (λ j, start + j * step) <$> seqZ 0 (Py.ceil_div (stop - start) step) in
  (∀ i : Z, i ∈ picked ↔ start ≤ i ∧ i < stop ∧ (i - start) `mod` step = 0)
  ∧ ∃ arr, FileStack.read columns start stop step self = (Ok arr, self)
      ∧ Forall2 (λ (i : Z) r,
          global_rows columns (FileStack.files self) !! Z.to_nat i = Some r)
          picked (Numpy.nd_data arr).
Proof.
  intros Hinit Hc Hv picked. apply init_make in Hinit.
  set (members := FileStack.files self) in *. rewrite Hinit in *.
  pose proof Hv as (H0 & Hle & Hn & Hstep)%valid_range_true.
  split; [intros i; by apply picked_indices|].
  rewrite read_spec by done. rewrite make_size in Hn.
  pose proof (global_rows_len columns members Hc) as HG.
  destruct (getslice_valid (global_rows columns members) start stop step)
    as (rows & -> & Hlen & Hrows); [lia..|].
  eexists. split; [done|]. cbn [Numpy.nd_data].
  assert (0 ≤ Py.ceil_div (stop - start) step) as Hceil.
  { rewrite <- Hlen. unfold Py.len. lia. }
  apply Forall2_same_length_lookup. split.
  - unfold picked. rewrite length_fmap, length_seqZ. unfold Py.len in Hlen. lia.
  - intros j i r Hi Hr. unfold picked in Hi.
    rewrite list_lookup_fmap in Hi.
    destruct (seqZ 0 (Py.ceil_div (stop - start) step) !! j) as [z|] eqn:Hz; [|done].
    apply lookup_seqZ in Hz as [-> Hj]. injection Hi as <-.
    rewrite Z.add_0_l. by rewrite <- Hrows by lia.
Qed.

Lemma stack_step_over_global_indices_witness :
  ∃ self handles',
    FileStack.__init__ (A := NPYFile.t) Sample.disk2 (Glob.PathStr "example-*") []
    = (Ok self, handles')
    ∧ ∃ arr, FileStack.read ["Mass"] 37 44 3 self = (Ok arr, self)
        ∧ Forall2 (λ (i : Z) r,
            global_rows ["Mass"] (FileStack.files self) !! Z.to_nat i = Some r)
            [37; 40; 43] (Numpy.nd_data arr).
Proof.
  eexists _, _. split; [vm_compute; reflexivity|].
  match goal with
  | |- ∃ arr, FileStack.read _ _ _ _ ?s = _ ∧ _ =>
      destruct (stack_step_over_global_indices Sample.disk2 (Glob.PathStr "example-*") []
                  s ["example-2.npy"; "example-1.npy"] ["Mass"] 37 44 3)
        as (_ & arr & Hread & Hrows)
  end.
  - vm_compute. reflexivity.
  - repeat constructor; apply NPYFile_contract; split; reflexivity.
  - vm_compute. reflexivity.
  - exists arr. split; [exact Hread|exact Hrows].
Defined.

(** The step is not restarted in each member: over two files of 40 and 60
    rows, [read(_, 37, 44, 3)] returns the global rows 37, 40 and 43, so
    the second file gives its local rows 0 and 3. *)
Example stack_step_crosses_members :
  ∃ self handles' arr,
    FileStack.__init__ (A := NPYFile.t) Sample.disk2 (Glob.PathStr "example-*") []
    = (Ok self, handles')
    ∧ FileStack.read ["Mass"] 37 44 3 self = (Ok arr, self)
    ∧ Numpy.field arr "Mass" = Ok [Numpy.VFloat 37; Numpy.VFloat 40; Numpy.VFloat 43].
Proof.
  eexists _, _, _. split; [vm_compute; reflexivity|].
  split; vm_compute; reflexivity.
Qed.

(** C6: a path with a wildcard is expanded to the matching paths in
    lexicographic order, and that order is the order of the members; an
    explicit list gives the members in the order of the list; and a stack
    over two files of 40 and 60 rows has size 100, reading rows [0, 100)
    giving the whole content of the first file followed by the whole
    content of the second. *)
Theorem stack_member_order {A : Type} `{FileType A} fs handles :
  (∀ pattern (self : FileStack.t A) handles',
     Glob.has_wildcard pattern = true →
     FileStack.__init__ fs (Glob.PathStr pattern) handles = (Ok self, handles') →
     let paths := Glob.sorted (Glob.glob fs pattern) in
     Sorted Glob.path_le paths
     ∧ (∀ name, name ∈ paths ↔ is_Some (fs !! name) ∧ Glob.matches pattern name = true)
     ∧ Forall2 (λ p f, ft_open fs p = Ok f) paths (FileStack.files self))
  ∧ (∀ ps (self : FileStack.t A) handles',
       FileStack.__init__ fs (Glob.PathList ps) handles = (Ok self, handles') →
       Forall2 (λ p f, ft_open fs p = Ok f) ps (FileStack.files self))
  ∧ (∀ path (self : FileStack.t A) handles' f1 f2 columns,
       FileStack.__init__ fs path handles = (Ok self, handles') →
       FileStack.files self = [f1; f2] →
       adapter_contract f1 → adapter_contract f2 →
       ft_size f1 = 40 → ft_size f2 = 60 →
       FileStack.size self = 100
       ∧ FileStack.read columns 0 100 1 self
         = (Ok {| Numpy.nd_dtype := FileStack.dtype self;
                  Numpy.nd_data := full_rows columns f1 ++ full_rows columns f2 |},
            self)).
Proof.
  split; [|split].
  - intros pattern self handles' Hw Hinit paths.
    pose proof (init_spec fs (Glob.PathStr pattern) handles) as Hspec.
    cbv zeta in Hspec. rewrite Hinit in Hspec.
    destruct Hspec as (_ & Hopen & _).
    destruct (resolve_pattern fs pattern Hw) as (Hres & Hsorted & _ & Hin).
    rewrite Hres in Hopen, Hsorted, Hin. subst paths. by split; [|split].
  - intros ps self handles' Hinit.
    pose proof (init_spec fs (Glob.PathList ps) handles) as Hspec.
    cbv zeta in Hspec. rewrite Hinit in Hspec. by destruct Hspec as (_ & Hopen & _).
  - intros path self handles' f1 f2 columns Hinit Hfiles Hc1 Hc2 H1 H2.
    apply init_make in Hinit. rewrite Hfiles in Hinit. rewrite Hinit.
    assert (FileStack.size (FileStack.make [f1; f2]) = 100) as Hsize.
    { rewrite make_size. unfold FileStack.total. simpl. lia. }
    split; [done|]. rewrite <- Hsize.
    rewrite read_full by (by repeat apply Forall_cons_2).
    unfold global_rows. simpl. by rewrite app_nil_r.
Qed.

Lemma stack_member_order_witness :
  ∃ self handles' f1 f2,
    FileStack.__init__ (A := NPYFile.t) Sample.disk2 (Glob.PathStr "example-*") []
    = (Ok self, handles')
    ∧ Glob.sorted (Glob.glob Sample.disk2 "example-*") = ["example-1.npy"; "example-2.npy"]
    ∧ FileStack.files self = [f1; f2]
    ∧ NPYFile.path f1 = "example-1.npy" ∧ NPYFile.path f2 = "example-2.npy"
    ∧ FileStack.size self = 100
    ∧ FileStack.read ["Mass"] 0 100 1 self
      = (Ok {| Numpy.nd_dtype := FileStack.dtype self;
               Numpy.nd_data := Numpy.nd_data (NPYFile._data f1)
                                ++ Numpy.nd_data (NPYFile._data f2) |}, self).
Proof.
  eexists _, _, _, _. split; [vm_compute; reflexivity|].
  split; [vm_compute; reflexivity|]. split; [reflexivity|].
  split; [reflexivity|]. split; [reflexivity|].
  match goal with
  | |- FileStack.size ?s = _ ∧ FileStack.read _ _ _ _ _ = (Ok {| Numpy.nd_data :=
         Numpy.nd_data (NPYFile._data ?f1) ++ Numpy.nd_data (NPYFile._data ?f2) |}, _) =>
      destruct (stack_member_order (A := NPYFile.t) Sample.disk2 [])
        as (_ & _ & Htwo);
      destruct (Htwo (Glob.PathStr "example-*") s
                  ["example-2.npy"; "example-1.npy"] f1 f2 ["Mass"])
        as [Hsize Hread]
  end.
  - vm_compute. reflexivity.
  - reflexivity.
  - apply NPYFile_contract; split; reflexivity.
  - apply NPYFile_contract; split; reflexivity.
  - reflexivity.
  - reflexivity.
  - split; [exact Hsize|]. rewrite Hread. reflexivity.
Defined.

(** C4: constructing a stack from a path specification that resolves to
    no path fails with [ConfigurationError]; constructing one whose
    members do not all expose the same schema fails with [SchemaError];
    and whenever construction fails no handle stays held, so that there is
    either a stack with every member open or nothing. *)
Theorem stack_construction_errors {A : Type} `{FileType A} fs path handles :
  (Glob.resolve fs path = [] →
     FileStack.__init__ (A := A) fs path handles = (Err ConfigurationError, handles))
  ∧ (∀ members : list A,
       Glob.resolve fs path ≠ [] →
       Forall2 (λ p f, ft_open fs p = Ok f) (Glob.resolve fs path) members →
       (∃ f g, f ∈ members ∧ g ∈ members ∧ ft_dtype f ≠ ft_dtype g) →
       FileStack.__init__ fs path handles = (Err SchemaError, handles))
  ∧ (∀ e handles',
       FileStack.__init__ (A := A) fs path handles = (Err e, handles') →
       handles' = handles)
  ∧ (∀ (self : FileStack.t A) handles',
       FileStack.__init__ fs path handles = (Ok self, handles') →
       Forall2 (λ p f, ft_open fs p = Ok f) (Glob.resolve fs path) (FileStack.files self)
       ∧ FileStack.schema_equal (FileStack.files self) = true
       ∧ handles' = rev (Glob.resolve fs path) ++ handles).
Proof.
  pose proof (init_spec (A := A) fs path handles) as Hspec. cbv zeta in Hspec.
  split; [|split; [|split]].
  - intros Hnone. unfold FileStack.__init__. by rewrite Hnone.
  - intros members Hsome Hopen Hdiffer. unfold FileStack.__init__.
    destruct (Glob.resolve fs path) as [|p paths] eqn:Hpaths; [done|].
    rewrite (open_all_Ok fs (p :: paths) handles members Hopen).
    rewrite schema_equal_false by done.
    by rewrite release_all.
  - intros e handles' Hinit. rewrite Hinit in Hspec. by destruct Hspec.
  - intros self handles' Hinit. rewrite Hinit in Hspec.
    by destruct Hspec as (_ & ? & ? & _ & ?).
Qed.

Lemma stack_construction_errors_witness :
  FileStack.__init__ (A := NPYFile.t) Sample.disk4 (Glob.PathStr "nothing-*") ["held"]
  = (Err ConfigurationError, ["held"])
  ∧ FileStack.__init__ (A := NPYFile.t) Sample.disk4 (Glob.PathList ["a.npy"; "b.npy"])
      ["held"]
    = (Err SchemaError, ["held"]).
Proof.
  split.
  - apply (stack_construction_errors (A := NPYFile.t)). vm_compute. reflexivity.
  - destruct (stack_construction_errors (A := NPYFile.t) Sample.disk4
                (Glob.PathList ["a.npy"; "b.npy"]) ["held"]) as (_ & Hschema & _).
    eapply Hschema.
    + discriminate.
    + repeat constructor; vm_compute; reflexivity.
    + eexists _, _. split; [left|]. split; [right; left|].
      vm_compute. discriminate.
Defined.

(** ** Catalogs *)

Section OverrideFacts.
Context {A : Type} `{FileType A}.
Implicit Types (cat : CatalogSource.t A) (members : list A).







End OverrideFacts.



(** Over two files that bring their own [Weight], every second row of the
    catalog has the weight that its file holds, while [Value], which no
    file brings, is 1.0. *)
Example catalog_override_two_files :
  ∃ cat handles',
    NPYCatalog Sample.disk5 (Glob.PathStr "weighted-*") [] = (Ok cat, handles')
    ∧ CatalogSource.csize cat = 5
    ∧ (CatalogSource.read ["Weight"; "Value"] 0 5 2 cat).1
      = Ok [("Weight", [Numpy.VFloat 5; Numpy.VFloat 9; Numpy.VFloat 3]);
            ("Value", [Numpy.VFloat 1; Numpy.VFloat 1; Numpy.VFloat 1])].
Proof. eexists _, _. repeat split; vm_compute; reflexivity. Qed.

(** ** Reads change nothing *)

(** C8: the size and the dtype that an [NPYFile] has after construction
    are those it has after any sequence of reads; no read changes the
    adapter, nor a stack or a catalog over adapters that reads do not
    change; so every read returns what it would return on the object as
    constructed, and two reads return the same results in either order. *)
Theorem reads_change_nothing :
  (∀ fs path (self : NPYFile.t) reqs,
     NPYFile.__init__ fs path = Ok self →
     (NPYFile.reads reqs self).2 = self
     ∧ (∃ data, fs !! path = Some data
          ∧ NPYFile.size (NPYFile.reads reqs self).2 = Numpy.len data
          ∧ NPYFile.dtype (NPYFile.reads reqs self).2 = Numpy.nd_dtype data)
     ∧ (NPYFile.reads reqs self).1
       = (λ req : list string * Z * Z * Z,
            (NPYFile.read req.1.1.1 req.1.1.2 req.1.2 req.2 self).1) <$> reqs)
  ∧ (∀ (self : NPYFile.t) req1 req2 a b,
       (NPYFile.reads [req1; req2] self).1 = [a; b] →
       (NPYFile.reads [req2; req1] self).1 = [b; a])
  ∧ (∀ (A : Type) (FT : FileType A) (self : FileStack.t A) columns start stop step,
       Forall (λ f, ∀ cs a b c, (ft_read cs a b c f).2 = f) (FileStack.files self) →
       (FileStack.read columns start stop step self).2 = self)
  ∧ (∀ (A : Type) (FT : FileType A) (cat : CatalogSource.t A) columns start stop step,
       Forall (λ f, ∀ cs a b c, (ft_read cs a b c f).2 = f)
         (FileStack.files (CatalogSource.source cat)) →
       (CatalogSource.read columns start stop step cat).2 = cat).
Proof.
  assert (∀ (self : NPYFile.t) reqs,
            NPYFile.reads reqs self
            = ((λ req : list string * Z * Z * Z,
                  (NPYFile.read req.1.1.1 req.1.1.2 req.1.2 req.2 self).1) <$> reqs,
               self)) as Hreads.
  { intros self reqs. induction reqs as [|[[[cs a] b] c] reqs IH]; [done|].
    cbn [NPYFile.reads]. unfold NPYFile.read at 1. by rewrite IH. }
  split; [|split; [|split]].
  - intros fs path self reqs (data & Hdata & ->)%NPYFile_init_Ok.
    rewrite Hreads. split; [done|]. split; [|done]. by exists data.
  - intros self req1 req2 a b. rewrite !Hreads. cbn [fst fmap list_fmap].
    by intros [= <- <-].
  - intros A FT self columns start stop step. apply read_state.
  - intros A FT cat columns start stop step. apply catalog_read_state.
Qed.

Lemma reads_change_nothing_witness :
  ∃ self, NPYFile.__init__ Sample.disk2 "other.npy" = Ok self
    ∧ (NPYFile.reads [(["Mass"], 0, 2, 1); ([], 1, 9, 2); (["Mass"], 0, 2, 1)] self).2
      = self
    ∧ (FileStack.read ["Mass"] 0 3 2 (FileStack.make [self; self])).2
      = FileStack.make [self; self].
Proof.
  eexists. split; [vm_compute; reflexivity|].
  destruct reads_change_nothing as (Hnpy & _ & Hstack & _).
  split.
  - match goal with
    | |- (NPYFile.reads ?reqs ?f).2 = _ =>
        apply (Hnpy Sample.disk2 "other.npy" f reqs)
    end.
    vm_compute. reflexivity.
  - apply Hstack. repeat constructor.
Defined.

(** ** The outputs printed in the notebook *)

(** [NPYCatalog("npy-example.npy")]: the columns and the total size. *)
Example notebook_npy_catalog :
  ∃ cat handles',
    NPYCatalog Sample.disk1 (Glob.PathStr "npy-example.npy") [] = (Ok cat, handles')
    ∧ CatalogSource.columns cat = ["Mass"; "Position"; "Selection"; "Value"; "Weight"]
    ∧ CatalogSource.csize cat = 1024.
Proof. eexists _, _. repeat split; vm_compute; reflexivity. Qed.

(** Two files of 40 and 60 rows, by a glob pattern and by a list of names:
    the combined size is 100. *)
Example notebook_two_files :
  ∃ cat1 cat2 h1 h2,
    NPYCatalog Sample.disk2 (Glob.PathStr "example-*") [] = (Ok cat1, h1)
    ∧ NPYCatalog Sample.disk2 (Glob.PathList ["example-1.npy"; "example-2.npy"]) []
      = (Ok cat2, h2)
    ∧ CatalogSource.csize cat1 = 100 ∧ CatalogSource.csize cat2 = 100.
Proof. eexists _, _, _, _. repeat split; vm_compute; reflexivity. Qed.

(** * More on the adapter and on the script cells *)

(** ** Arithmetic of counts *)

(** [ceil(k / s)] is the one [n] with [(n - 1) * s < k <= n * s]. *)
Lemma ceil_div_bounds k s :
  1 ≤ s → (Py.ceil_div k s - 1) * s < k ∧ k ≤ Py.ceil_div k s * s.
Proof.
  intros Hs. unfold Py.ceil_div.
  pose proof (Z.div_mod (- k) s ltac:(lia)) as Hdm.
  pose proof (Z.mod_pos_bound (- k) s ltac:(lia)) as Hr.
  nia.
Qed.

Lemma ceil_div_unique k s n :
  1 ≤ s → (n - 1) * s < k → k ≤ n * s → Py.ceil_div k s = n.
Proof.
  intros Hs Hlo Hhi. destruct (ceil_div_bounds k s Hs) as [Hlo' Hhi']. nia.
Qed.

Lemma ceil_div_add_mul k q s :
  1 ≤ s → Py.ceil_div (k + q * s) s = Py.ceil_div k s + q.
Proof.
  intros Hs. apply ceil_div_unique; [done|..];
    destruct (ceil_div_bounds k s Hs); nia.
Qed.

(** ** Slices as subsequences, prefixes and chunks *)

Section SliceOrder.
Context {B : Type}.
Implicit Types (l rows : list B).

(** The items at increasing indices [a + k*step] form a subsequence of
    the list from [a] on. *)
Lemma stride_sublist l (a step : Z) (cnt : nat) (m : Z) :
  0 ≤ a → 1 ≤ step → 0 ≤ m →
  omap (λ k, l !! Z.to_nat (a + k * step)) (seqZ m (Z.of_nat cnt))
  `sublist_of` drop (Z.to_nat (a + m * step)) l.
Proof.
  intros Ha Hstep. revert m. induction cnt as [|cnt IH]; intros m Hm.
  { rewrite seqZ_nil by lia. apply sublist_nil_l. }
  rewrite seqZ_cons by lia.
  replace (Z.pred (Z.of_nat (S cnt))) with (Z.of_nat cnt) by lia.
  cbn [omap list_omap]. specialize (IH (Z.succ m) ltac:(lia)).
  assert (drop (Z.to_nat (a + Z.succ m * step)) l
          `sublist_of` drop (S (Z.to_nat (a + m * step))) l) as Hdrop.
  { replace (Z.to_nat (a + Z.succ m * step))
      with (S (Z.to_nat (a + m * step)) + Z.to_nat (step - 1))%nat by nia.
    rewrite <- drop_drop. apply sublist_drop. }
  destruct (l !! Z.to_nat (a + m * step)) as [x|] eqn:Hx.
  - rewrite (drop_S _ _ _ Hx). apply sublist_skip. by etrans.
  - etrans; [exact IH|]. etrans; [exact Hdrop|].
    replace (S (Z.to_nat (a + m * step))) with (Z.to_nat (a + m * step) + 1)%nat by lia.
    rewrite <- drop_drop. apply sublist_drop.
Qed.

(** With a positive step a slice is a subsequence of the list, whatever
    the bounds. *)
Lemma getslice_sublist l start stop step rows :
  1 ≤ step → Py.getslice l start stop step = Ok rows → rows `sublist_of` l.
Proof.
  intros Hstep. unfold Py.getslice. destruct (Z.eqb_spec step 0); [lia|].
  unfold Py.slice_indices. destruct (Z.ltb_spec step 0); [lia|].
  intros [= <-].
  assert (0 ≤ Py.len l) as Hlen by (unfold Py.len; lia).
  destruct (adjust_bounds (Py.len l) start Hlen) as [Hs _].
  set (s := Py.adjust (Py.len l) 0 (Py.len l) start) in *.
  set (e := Py.adjust (Py.len l) 0 (Py.len l) stop).
  destruct (Z.le_gt_cases (Py.slice_length s e step) 0) as [Hnone|Hsome].
  { rewrite seqZ_nil by done. apply sublist_nil_l. }
  rewrite <- (Z2Nat.id (Py.slice_length s e step)) by lia.
  etrans; [apply (stride_sublist l s step _ 0); lia|]. apply sublist_drop.
Qed.

(** With a positive step, reading up to an earlier [stop] gives a prefix
    of reading up to a later one from the same [start]. *)
Lemma getslice_prefix l start stop stop' step :
  1 ≤ step → 0 ≤ stop → stop ≤ stop' →
  ∃ rows rows', Py.getslice l start stop step = Ok rows
    ∧ Py.getslice l start stop' step = Ok rows'
    ∧ rows = take (length rows) rows'.
Proof.
  intros Hstep H0 Hle.
  destruct (getslice_clamped l start stop step Hstep) as (rows & Hr & Hn & Hi).
  destruct (getslice_clamped l start stop' step Hstep) as (rows' & Hr' & Hn' & Hi').
  exists rows, rows'. split; [done|]. split; [done|].
  assert (0 ≤ Py.len l) as Hlen by (unfold Py.len; lia).
  rewrite !(adjust_nonneg _ stop), !(adjust_nonneg _ stop') in * by lia.
  set (s := Py.adjust (Py.len l) 0 (Py.len l) start) in *. clearbody s.
  pose proof (ceil_div_mono (Z.min stop (Py.len l) - s) (Z.min stop' (Py.len l) - s)
                step Hstep ltac:(lia)) as Hmono.
  apply (list_eq_below _ _ (Py.len rows)); [done| |].
  - unfold Py.len in *. rewrite length_take. lia.
  - intros i Hlt. rewrite lookup_take_lt by (unfold Py.len in Hlt; lia).
    rewrite Hi, Hi'; [done|unfold Py.len in *; lia..].
Qed.

(** Two reads that meet at a boundary aligned with the step give, one
    after the other, the read of the whole range. *)
Lemma getslice_chunks l a b c step :
  0 ≤ a → a ≤ b → b ≤ c → 1 ≤ step → (b - a) `mod` step = 0 →
  ∃ rows1 rows2, Py.getslice l a b step = Ok rows1
    ∧ Py.getslice l b c step = Ok rows2
    ∧ Py.getslice l a c step = Ok (rows1 ++ rows2).
Proof.
  intros Ha Hab Hbc Hstep Hmod.
  destruct (getslice_clamped l a b step Hstep) as (r1 & Hr1 & Hn1 & Hi1).
  destruct (getslice_clamped l b c step Hstep) as (r2 & Hr2 & Hn2 & Hi2).
  destruct (getslice_clamped l a c step Hstep) as (r & Hr & Hn & Hi).
  exists r1, r2. split; [done|]. split; [done|]. rewrite Hr. f_equal.
  assert (0 ≤ Py.len l) as Hlen by (unfold Py.len; lia).
  rewrite !adjust_nonneg in * by lia.
  set (L := Py.len l) in *.
  assert (b - a = (b - a) / step * step) as Hq.
  { pose proof (Z.div_mod (b - a) step ltac:(lia)). lia. }
  set (q := (b - a) / step) in *.
  assert (0 ≤ q) as Hq0 by (apply Z.div_pos; lia).
  assert (Py.len r = Py.len r1 + Py.len r2
          ∧ (0 < Py.len r2 → Z.min b L = Z.min a L + Py.len r1 * step)) as [Hsum Hjoin].
  { rewrite Hn, Hn1, Hn2. destruct (Z.le_gt_cases b L) as [HbL|HbL].
    - rewrite (Z.min_l a L), (Z.min_l b L) by lia.
      replace (Z.min c L - a) with (Z.min c L - b + q * step) by lia.
      rewrite ceil_div_add_mul by done.
      replace (b - a) with (0 + q * step) by lia.
      rewrite ceil_div_add_mul, ceil_div_0 by done.
      destruct (ceil_div_bounds (Z.min c L - b) step Hstep). split; nia.
    - rewrite (Z.min_r b L), (Z.min_r c L) by lia.
      rewrite Z.sub_diag, ceil_div_0. split; lia. }
  apply (list_eq_below _ _ (Py.len r)); [done| |].
  - unfold Py.len in *. rewrite length_app. lia.
  - intros i Hlt. rewrite Hi by done.
    destruct (Z.lt_ge_cases (Z.of_nat i) (Py.len r1)) as [Hleft|Hright].
    + rewrite lookup_app_l by (unfold Py.len in Hleft; lia). by rewrite Hi1.
    + rewrite lookup_app_r by (unfold Py.len in Hright; lia).
      rewrite Hi2 by (unfold Py.len in *; lia).
      f_equal. unfold Py.len in *. nia.
Qed.

End SliceOrder.

(** A slice, taken in memory, of the rows that a valid slice returned is
    itself a slice of the list: the starts add up and the steps multiply. *)
Lemma getslice_getslice {B} (l rows : list B) (a b s1 c d s2 : Z) :
  0 ≤ a → a ≤ b → b ≤ Py.len l → 1 ≤ s1 →
  Py.getslice l a b s1 = Ok rows →
  0 ≤ c → c ≤ d → d ≤ Py.len rows → 1 ≤ s2 →
  Py.getslice rows c d s2
  = Py.getslice l (a + c * s1) (Z.min b (a + d * s1)) (s1 * s2).
Proof.
  intros Ha Hab Hb Hs1 Hrows Hc Hcd Hd Hs2.
  destruct (getslice_valid l a b s1) as (rows0 & Hrows0 & Hn1 & Hi1); [lia..|].
  rewrite Hrows in Hrows0. injection Hrows0 as <-.
  destruct (getslice_valid rows c d s2) as (r2 & -> & Hn2 & Hi2); [lia..|].
  destruct (getslice_clamped l (a + c * s1) (Z.min b (a + d * s1)) (s1 * s2) ltac:(nia))
    as (r & -> & Hn & Hi).
  f_equal.
  assert (0 ≤ Py.len l) as Hlen by (unfold Py.len; lia).
  rewrite (adjust_nonneg _ (a + c * s1)) in Hn, Hi by nia.
  rewrite (adjust_nonneg _ (Z.min b (a + d * s1))) in Hn by nia.
  rewrite (Z.min_l (Z.min b (a + d * s1))) in Hn by lia.
  destruct (ceil_div_bounds (b - a) s1 Hs1) as [Hlo1 Hhi1].
  destruct (ceil_div_bounds (d - c) s2 Hs2) as [Hlo2 Hhi2].
  rewrite <- Hn1 in Hlo1, Hhi1. rewrite <- Hn2 in Hlo2, Hhi2.
  set (n1 := Py.len rows) in *. set (n2 := Py.len r2) in *.
  assert (0 ≤ n2) as Hn2pos by (unfold n2, Py.len; lia).
  destruct (Z.eq_dec c d) as [->|Hlt].
  { assert (n2 = 0) as Hzero by (rewrite Hn2, Z.sub_diag; apply ceil_div_0).
    assert (Py.len r = 0) as Hr0.
    { rewrite Hn.
      pose proof (ceil_div_nonpos
                    (Z.min b (a + d * s1) - Z.min (a + d * s1) (Py.len l)) (s1 * s2)
                    ltac:(lia) ltac:(nia)). lia. }
    unfold n2, Py.len in *.
    destruct r2, r; simpl in *; try lia. done. }
  assert (a + c * s1 < b) as Hstart.
  { apply (stride_below_stop a b s1 c); [done..|]. rewrite <- Hn1. fold n1. lia. }
  rewrite (Z.min_l (a + c * s1)) in Hn, Hi by lia.
  assert (Py.len r = n2) as Hcount.
  { rewrite Hn.
    assert (Py.ceil_div (Z.min b (a + d * s1) - (a + c * s1)) (s1 * s2) = n2) as ->;
      [|lia].
    apply ceil_div_unique; [nia| |].
    - assert ((n2 - 1) * s2 ≤ d - c - 1) as Hm by lia.
      assert ((n2 - 1) * s2 * s1 ≤ (d - c - 1) * s1) as Hm' by nia.
      destruct (Z.min_spec b (a + d * s1)) as [[? ->]|[? ->]]; nia.
    - assert ((d - c) * s1 ≤ n2 * s2 * s1) as Hm by nia.
      destruct (Z.min_spec b (a + d * s1)) as [[? ->]|[? ->]]; nia. }
  apply (list_eq_below _ _ n2); [done..|].
  intros i Hi'. rewrite Hi2 by (rewrite <- Hn2; done).
  pose proof (stride_below_stop c d s2 (Z.of_nat i) Hs2 ltac:(lia)
                ltac:(rewrite <- Hn2; done)) as Hbelow.
  rewrite Hi1 by (rewrite <- Hn1; fold n1; lia).
  rewrite Hi by (rewrite Hcount; done).
  f_equal. rewrite Z2Nat.id by nia. f_equal. lia.
Qed.

(** Reading from the last item backwards past the first returns the list
    reversed. *)
Lemma getslice_backwards {B} (l : list B) :
  Py.getslice l (Py.len l - 1) (- Py.len l - 1) (-1) = Ok (reverse l).
Proof.
  unfold Py.getslice, Py.slice_indices, Py.adjust. simpl.
  set (n := Py.len l). assert (0 ≤ n) as Hn by (unfold n, Py.len; lia).
  assert (Z.min (n - 1) (n - 1) = n - 1) as -> by lia.
  assert ((if n - 1 <? 0 then Z.max (n - 1 + n) (-1) else n - 1) = n - 1) as ->.
  { destruct (Z.ltb_spec (n - 1) 0); lia. }
  assert ((if - n - 1 <? 0 then Z.max (- n - 1 + n) (-1) else Z.min (- n - 1) (n - 1))
          = -1) as ->.
  { destruct (Z.ltb_spec (- n - 1) 0); lia. }
  assert (Py.slice_length (n - 1) (-1) (-1) = n) as ->.
  { unfold Py.slice_length. simpl. destruct (Z.ltb_spec (-1) (n - 1)).
    - rewrite Z.div_1_r. lia.
    - lia. }
  f_equal.
  assert (Forall (λ k, is_Some (l !! Z.to_nat (n - 1 + k * -1))) (seqZ 0 n)) as Hall.
  { apply Forall_forall. intros k Hk%elem_of_seqZ. apply lookup_lt_is_Some.
    unfold n, Py.len in *. lia. }
  apply omap_all_Some in Hall.
  apply (list_eq_below _ _ n).
  - unfold Py.len. rewrite <- (Forall2_length _ _ _ Hall), length_seqZ. lia.
  - unfold Py.len. rewrite length_reverse. done.
  - intros i Hi.
    assert (seqZ 0 n !! i = Some (Z.of_nat i)) as Hs by (rewrite lookup_seqZ; lia).
    destruct (Forall2_lookup_l _ _ _ _ _ Hall Hs) as (y & -> & Hy).
    rewrite reverse_lookup by (unfold n, Py.len in *; lia).
    rewrite <- Hy. f_equal. unfold n, Py.len in *. lia.
Qed.

(** ** Slices with omitted bounds *)

Section OmittedBounds.
Context {B : Type}.
Implicit Types (l : list B).

(** [l[:k]] is [l[0:k]]. *)
Lemma getslice_opt_until l k :
  Notebook.getslice_opt l None (Some k) None = Py.getslice l 0 k 1.
Proof.
  unfold Notebook.getslice_opt, Py.getslice, Py.slice_indices. simpl.
  assert (Py.adjust (Py.len l) 0 (Py.len l) 0 = 0) as ->; [|done].
  rewrite adjust_nonneg by (unfold Py.len; lia). unfold Py.len. lia.
Qed.

(** [l[k:]] is [l[k:len(l)]]. *)
Lemma getslice_opt_from l k :
  Notebook.getslice_opt l (Some k) None None = Py.getslice l k (Py.len l) 1.
Proof.
  unfold Notebook.getslice_opt, Py.getslice, Py.slice_indices. simpl.
  assert (Py.adjust (Py.len l) 0 (Py.len l) (Py.len l) = Py.len l) as ->; [|done].
  rewrite adjust_nonneg by (unfold Py.len; lia). lia.
Qed.

(** For every integer [k], negative or beyond the end, [l[:k]] and
    [l[k:]] are the two parts of [l] at the adjusted position of [k]. *)
Lemma getslice_opt_parts l k :
  let pos := Z.to_nat (Py.adjust (Py.len l) 0 (Py.len l) k) in
  Notebook.getslice_opt l None (Some k) None = Ok (take pos l)
  ∧ Notebook.getslice_opt l (Some k) None None = Ok (drop pos l).
Proof.
  intros pos. rewrite getslice_opt_until, getslice_opt_from.
  assert (0 ≤ Py.len l) as Hlen by (unfold Py.len; lia).
  destruct (adjust_bounds (Py.len l) k Hlen) as [Hk0 Hk1].
  assert (Py.adjust (Py.len l) 0 (Py.len l) 0 = 0) as H0
    by (rewrite adjust_nonneg by lia; lia).
  assert (Py.adjust (Py.len l) 0 (Py.len l) (Py.len l) = Py.len l) as Hn
    by (rewrite adjust_nonneg by lia; lia).
  rewrite (getslice_adjusted l 0 k 1), (getslice_adjusted l k (Py.len l) 1) by lia.
  cbv zeta. rewrite H0, Hn.
  rewrite !Z.max_r by lia. rewrite !getslice_contiguous by lia.
  fold pos. split; f_equal.
  - by rewrite Z.sub_0_r.
  - apply take_ge. rewrite length_drop. unfold pos, Py.len in *. lia.
Qed.

End OmittedBounds.

(** ** More properties of [NPYFile] *)

(** With a step of at least 1, whatever the bounds, the records that
    [read] returns are a subsequence of the records of the file: in file
    order, none repeated or invented, and so never more than the file
    holds. *)
Theorem npyfile_read_subsequence (self : NPYFile.t) columns start stop step :
  1 ≤ step →
  ∃ arr, NPYFile.read columns start stop step self = (Ok arr, self)
    ∧ Numpy.nd_dtype arr = Numpy.nd_dtype (NPYFile._data self)
    ∧ Numpy.nd_data arr `sublist_of` Numpy.nd_data (NPYFile._data self)
    ∧ Numpy.len arr ≤ Numpy.len (NPYFile._data self).
Proof.
  intros Hstep.
  destruct (getslice_clamped (Numpy.nd_data (NPYFile._data self)) start stop step Hstep)
    as (rows & Hrows & _).
  pose proof (getslice_sublist _ _ _ _ _ Hstep Hrows) as Hsub.
  exists {| Numpy.nd_dtype := Numpy.nd_dtype (NPYFile._data self); Numpy.nd_data := rows |}.
  split; [|split; [done|split; [done|]]].
  - unfold NPYFile.read, Numpy.getitem. by rewrite Hrows.
  - apply sublist_length in Hsub. unfold Numpy.len, Py.len. simpl. lia.
Qed.

Lemma npyfile_read_subsequence_witness :
  ∃ self arr, NPYFile.__init__ Sample.disk2 "other.npy" = Ok self
    ∧ NPYFile.read [] (-2) 7 2 self = (Ok arr, self)
    ∧ Numpy.nd_data arr `sublist_of` Numpy.nd_data (Sample.table 0 3).
Proof.
  eexists.
  match goal with
  | |- ∃ arr, NPYFile.__init__ _ _ = Ok ?f ∧ _ =>
      destruct (npyfile_read_subsequence f [] (-2) 7 2 ltac:(lia))
        as (arr & Hread & _ & Hsub & _)
  end.
  exists arr. split; [vm_compute; reflexivity|]. split; [exact Hread|exact Hsub].
Defined.

(** With a step of at least 1 and the same [start], reading up to an
    earlier [stop] returns a prefix of what reading up to a later [stop]
    returns. *)
Theorem npyfile_read_prefix (self : NPYFile.t) columns columns' start stop stop' step :
  1 ≤ step → 0 ≤ stop → stop ≤ stop' →
  ∃ arr arr',
    NPYFile.read columns start stop step self = (Ok arr, self)
    ∧ NPYFile.read columns' start stop' step self = (Ok arr', self)
    ∧ Numpy.nd_data arr `prefix_of` Numpy.nd_data arr'.
Proof.
  intros Hstep H0 Hle.
  destruct (getslice_prefix (Numpy.nd_data (NPYFile._data self)) start stop stop' step
              Hstep H0 Hle) as (rows & rows' & Hr & Hr' & Heq).
  eexists _, _. unfold NPYFile.read, Numpy.getitem. rewrite Hr, Hr'.
  split; [done|]. split; [done|]. cbn [Numpy.nd_data].
  exists (drop (length rows) rows').
  rewrite <- (take_drop (length rows) rows') at 1. by rewrite <- Heq.
Qed.

Lemma npyfile_read_prefix_witness :
  ∃ self arr arr', NPYFile.__init__ Sample.disk2 "example-1.npy" = Ok self
    ∧ NPYFile.read ["Mass"] 3 10 3 self = (Ok arr, self)
    ∧ NPYFile.read ["Mass"] 3 25 3 self = (Ok arr', self)
    ∧ Numpy.nd_data arr `prefix_of` Numpy.nd_data arr'.
Proof.
  eexists.
  match goal with
  | |- ∃ arr arr', NPYFile.__init__ _ _ = Ok ?f ∧ _ =>
      destruct (npyfile_read_prefix f ["Mass"] ["Mass"] 3 10 25 3)
        as (arr & arr' & Hr & Hr' & Hpre); [lia..|]
  end.
  exists arr, arr'. split; [vm_compute; reflexivity|].
  split; [exact Hr|]. split; [exact Hr'|exact Hpre].
Defined.

(** Reading a range in two chunks: when the boundary [b] between them is
    a whole number of steps after [a], the rows of [read(a, b, step)]
    followed by those of [read(b, c, step)] are the rows of
    [read(a, c, step)], also when [b] or [c] lies beyond the end. *)
Theorem npyfile_read_chunks (self : NPYFile.t) columns a b c step :
  0 ≤ a → a ≤ b → b ≤ c → 1 ≤ step → (b - a) `mod` step = 0 →
  ∃ left right whole,
    NPYFile.read columns a b step self = (Ok left, self)
    ∧ NPYFile.read columns b c step self = (Ok right, self)
    ∧ NPYFile.read columns a c step self = (Ok whole, self)
    ∧ Numpy.nd_data whole = Numpy.nd_data left ++ Numpy.nd_data right
    ∧ Numpy.len whole = Numpy.len left + Numpy.len right.
Proof.
  intros Ha Hab Hbc Hstep Hmod.
  destruct (getslice_chunks (Numpy.nd_data (NPYFile._data self)) a b c step
              Ha Hab Hbc Hstep Hmod) as (r1 & r2 & H1 & H2 & H12).
  eexists _, _, _. unfold NPYFile.read, Numpy.getitem. rewrite H1, H2, H12.
  split; [done|]. split; [done|]. split; [done|]. split; [done|].
  unfold Numpy.len, Py.len. cbn [Numpy.nd_data]. rewrite length_app. lia.
Qed.

Lemma npyfile_read_chunks_witness :
  ∃ self left right whole, NPYFile.__init__ Sample.disk2 "example-1.npy" = Ok self
    ∧ NPYFile.read ["Mass"] 2 20 3 self = (Ok left, self)
    ∧ NPYFile.read ["Mass"] 20 99 3 self = (Ok right, self)
    ∧ NPYFile.read ["Mass"] 2 99 3 self = (Ok whole, self)
    ∧ Numpy.nd_data whole = Numpy.nd_data left ++ Numpy.nd_data right.
Proof.
  eexists.
  match goal with
  | |- ∃ left right whole, NPYFile.__init__ _ _ = Ok ?f ∧ _ =>
      destruct (npyfile_read_chunks f ["Mass"] 2 20 99 3)
        as (left & right & whole & H1 & H2 & H3 & Happ & _);
        [lia|lia|lia|lia|reflexivity|]
  end.
  exists left, right, whole. split; [vm_compute; reflexivity|].
  split; [exact H1|]. split; [exact H2|]. split; [exact H3|exact Happ].
Defined.

(** Slicing in memory what a valid read returned is one read of the file:
    rows [c:d:s2] of the result of [read(a, b, s1)] are the result of
    [read(a + c*s1, min(b, a + d*s1), s1*s2)]. *)
Theorem npyfile_read_then_slice (self : NPYFile.t) columns a b s1 arr c d s2 :
  NPYFile.constructed self →
  valid_range (NPYFile.size self) a b s1 = true →
  NPYFile.read columns a b s1 self = (Ok arr, self) →
  valid_range (Numpy.len arr) c d s2 = true →
  Numpy.getitem arr c d s2
  = (NPYFile.read columns (a + c * s1) (Z.min b (a + d * s1)) (s1 * s2) self).1.
Proof.
  intros [Hsize _] (Ha & Hab & Hb & Hs1)%valid_range_true Hread
    (Hc & Hcd & Hd & Hs2)%valid_range_true.
  rewrite Hsize in Hb. unfold NPYFile.read, Numpy.getitem in *. cbn [fst].
  destruct (Py.getslice (Numpy.nd_data (NPYFile._data self)) a b s1)
    as [rows|e] eqn:Hrows; [|done].
  injection Hread as <-. cbn [Numpy.nd_data Numpy.nd_dtype] in *.
  by rewrite (getslice_getslice _ _ _ _ _ _ _ _ Ha Hab Hb Hs1 Hrows Hc Hcd Hd Hs2).
Qed.

Lemma npyfile_read_then_slice_witness :
  ∃ self arr, NPYFile.__init__ Sample.disk2 "example-1.npy" = Ok self
    ∧ NPYFile.read ["Mass"] 1 40 3 self = (Ok arr, self)
    ∧ Numpy.getitem arr 2 13 2 = (NPYFile.read ["Mass"] 7 40 6 self).1.
Proof.
  eexists _, _. split; [vm_compute; reflexivity|].
  split; [vm_compute; reflexivity|].
  match goal with
  | |- Numpy.getitem ?arr _ _ _ = (NPYFile.read _ _ _ _ ?f).1 =>
      apply (npyfile_read_then_slice f ["Mass"] 1 40 3 arr 2 13 2)
  end.
  - split; reflexivity.
  - vm_compute. reflexivity.
  - vm_compute. reflexivity.
  - vm_compute. reflexivity.
Defined.

(** [read] accepts a negative step: from the last row backwards past the
    first, with step -1, it returns every record of the file in reverse
    order. *)
Theorem npyfile_read_backwards (self : NPYFile.t) columns :
  NPYFile.constructed self →
  NPYFile.read columns (NPYFile.size self - 1) (- NPYFile.size self - 1) (-1) self
  = (Ok {| Numpy.nd_dtype := NPYFile.dtype self;
           Numpy.nd_data := reverse (Numpy.nd_data (NPYFile._data self)) |},
     self).
Proof.
  intros [Hsize Hdtype]. unfold NPYFile.read, Numpy.getitem.
  rewrite Hsize, Hdtype. unfold Numpy.len. by rewrite getslice_backwards.
Qed.

Lemma npyfile_read_backwards_witness :
  ∃ self, NPYFile.__init__ Sample.disk2 "other.npy" = Ok self
    ∧ NPYFile.read ["Mass"] 2 (-4) (-1) self
      = (Ok {| Numpy.nd_dtype := Sample.position_mass;
               Numpy.nd_data := [Sample.record 2; Sample.record 1; Sample.record 0] |},
         self).
Proof.
  eexists. split; [vm_compute; reflexivity|].
  match goal with
  | |- NPYFile.read _ _ _ _ ?f = _ =>
      exact (npyfile_read_backwards f ["Mass"] (conj eq_refl eq_refl))
  end.
Defined.

(** ** The cell that prepares the two files *)

(** For every [data], [data[:40]] and [data[40:]] are computed without
    error and split [data] in two: one after the other they give [data]
    back, the first has [min(40, len(data))] rows and the second the rest;
    with the 100 rows of the notebook that is 40 rows and 60 rows. *)
Theorem split_rows_partition {B} (data : list B) :
  ∃ first rest,
    Notebook.split_rows data = Ok (first, rest)
    ∧ first ++ rest = data
    ∧ Py.len first = Z.min 40 (Py.len data)
    ∧ Py.len rest = Z.max 0 (Py.len data - 40)
    ∧ (Py.len data = 100 → Py.len first = 40 ∧ Py.len rest = 60).
Proof.
  destruct (getslice_opt_parts data 40) as [Hfirst Hrest].
  unfold Notebook.split_rows. rewrite Hfirst, Hrest. cbn [mbind result_bind].
  assert (0 ≤ Py.len data) as Hlen by (unfold Py.len; lia).
  rewrite adjust_nonneg by lia.
  eexists _, _. split; [done|]. split; [apply take_drop|].
  assert (Py.len (take (Z.to_nat (Z.min 40 (Py.len data))) data)
          = Z.min 40 (Py.len data)) as H1.
  { unfold Py.len in *. rewrite length_take. lia. }
  assert (Py.len (drop (Z.to_nat (Z.min 40 (Py.len data))) data)
          = Z.max 0 (Py.len data - 40)) as H2.
  { unfold Py.len in *. rewrite length_drop. lia. }
  split; [done|]. split; [done|]. intros H100. rewrite H1, H2, H100. done.
Qed.

Lemma split_rows_partition_witness :
  ∃ first rest,
    Notebook.split_rows (Numpy.nd_data (Sample.table 0 100)) = Ok (first, rest)
    ∧ first ++ rest = Numpy.nd_data (Sample.table 0 100)
    ∧ Py.len first = 40 ∧ Py.len rest = 60.
Proof.
  destruct (split_rows_partition (Numpy.nd_data (Sample.table 0 100)))
    as (first & rest & Hsplit & Happ & _ & _ & Hlen).
  exists first, rest. split; [exact Hsplit|]. split; [exact Happ|].
  apply Hlen. vm_compute. reflexivity.
Defined.

(** ** Bounds out of range *)

(** With a step of at least 1, every request is answered as one request
    that satisfies the precondition: a negative bound counts from the end
    ([-1] is the last row), a bound further out is moved to the nearest
    end, a [stop] before the [start] is moved up to it, and the read with
    the bounds so normalised, which lie in [0, size] in order, returns the
    same. *)
Theorem npyfile_read_normalised (self : NPYFile.t) columns start stop step :
  NPYFile.constructed self → 1 ≤ step →
  let size := NPYFile.size self in
  let s := Py.adjust size 0 size start in
  let e := Z.max s (Py.adjust size 0 size stop) in
  valid_range size s e step = true
  ∧ NPYFile.read columns start stop step self = NPYFile.read columns s e step self
  ∧ (start < - size → s = 0)
  ∧ (- size ≤ start → start < 0 → s = start + size)
  ∧ (0 ≤ start → s = Z.min start size).
Proof.
  intros [Hsize _] Hstep size s e.
  assert (0 ≤ size) as Hpos by (unfold size; rewrite Hsize; unfold Numpy.len, Py.len; lia).
  destruct (adjust_bounds size start Hpos) as [Hs0 Hs1].
  destruct (adjust_bounds size stop Hpos) as [He0 He1].
  split; [apply valid_range_true; unfold e; fold s; lia|].
  split.
  - unfold NPYFile.read, Numpy.getitem.
    rewrite (getslice_adjusted (Numpy.nd_data (NPYFile._data self)) start stop step Hstep).
    cbv zeta. change (Py.len (Numpy.nd_data (NPYFile._data self)))
      with (Numpy.len (NPYFile._data self)).
    rewrite <- Hsize. done.
  - unfold s, Py.adjust. repeat split; intros; destruct (Z.ltb_spec start 0); lia.
Qed.

Lemma npyfile_read_normalised_witness :
  ∃ self, NPYFile.__init__ Sample.disk2 "example-1.npy" = Ok self
    ∧ NPYFile.read ["Mass"] (-5) 1000 2 self = NPYFile.read ["Mass"] 35 40 2 self.
Proof.
  eexists. split; [vm_compute; reflexivity|].
  match goal with
  | |- NPYFile.read _ _ _ _ ?f = _ =>
      exact (proj1 (proj2 (npyfile_read_normalised f ["Mass"] (-5) 1000 2
                             (conj eq_refl eq_refl) ltac:(lia))))
  end.
Defined.
